(** * Diff-algorithm analysis pipeline: a shallow embedding

    The development follows the three scripts of the repository:
    - [simple_analysis.py]: [get_diff], [classify_file_type] and [main];
    - [summary.py]: [display_summary];
    - [visualization.py]: [create_final_clear_visualization].

    Conventions.  A Python [str] is a Rocq [string]; a character stands for
    the code point of the same number (code points below 256).  [None] is
    [None] of an [option].  Python integers are [Z].  A float that comes out
    of a true division is an exact rational of [Q]: no statement below
    depends on rounding.  Exceptions are values of [exn], carried by
    [result]. *)

From Stdlib Require Import List String Ascii Bool ZArith QArith Lia Arith.
From Stdlib Require Import Sorted Permutation.
Import ListNotations.

Local Open Scope string_scope.
Local Open Scope Z_scope.

(** ** Python strings *)

Module PyStr.

(** Truthiness of an optional string: [None] and [""] are falsy. *)
Definition truthy (s : option string) : bool :=
  match s with
  | None => false
  | Some "" => false
  | Some _ => true
  end.

(** [a or b] on optional strings. *)
Definition py_or (a b : option string) : option string :=
  if truthy a then a else b.

(** [s[:n]] for [0 <= n]. *)
Fixpoint take (n : nat) (s : string) : string :=
  match n, s with
  | S k, String c s' => String c (take k s')
  | _, _ => ""
  end.

(** [s[n:]] for [0 <= n]. *)
Fixpoint drop (n : nat) (s : string) : string :=
  match n, s with
  | S k, String _ s' => drop k s'
  | _, _ => s
  end.

(** [s[i:j]] for [0 <= i]. *)
Definition slice (s : string) (i j : Z) : string :=
  take (Z.to_nat (j - i)) (drop (Z.to_nat i) s).

(** [s.rfind(c)] for a one-character [c]: the highest index of [c] in [s],
    or [-1]. *)
Fixpoint rfind (c : ascii) (s : string) : Z :=
  match s with
  | "" => -1
  | String a s' =>
      let r := rfind c s' in
      if 0 <=? r then r + 1
      else if Ascii.eqb a c then 0 else -1
  end.

(** [str.lower] on one code point below 256: the ASCII capitals and the
    Latin-1 capitals (U+00C0..U+00DE without the multiplication sign) move
    up by 32, every other code point is its own lowercase. *)
Definition lower_char (c : ascii) : ascii :=
  let n := nat_of_ascii c in
  if ((65 <=? n) && (n <=? 90)
      || (192 <=? n) && (n <=? 214)
      || (216 <=? n) && (n <=? 222))%nat
  then ascii_of_nat (n + 32)
  else c.

Fixpoint lower (s : string) : string :=
  match s with
  | "" => ""
  | String c s' => String (lower_char c) (lower s')
  end.

(** [needle in s]. *)
Fixpoint contains (needle s : string) : bool :=
  String.prefix needle s
  || match s with
     | "" => false
     | String _ s' => contains needle s'
     end.

(** [x in [a, b, ...]] for a list of strings. *)
Definition str_in (x : string) (l : list string) : bool :=
  existsb (String.eqb x) l.

(** [s * n]. *)
Fixpoint repeat_str (s : string) (n : nat) : string :=
  match n with
  | O => ""
  | S k => s ++ repeat_str s k
  end.

End PyStr.
Import PyStr.

(** ** [os.path.splitext] (the POSIX flavour: [sep = "/"], no [altsep],
    [extsep = "."]), as [genericpath._splitext] computes it. *)

Module OsPath.

(** The [while filenameIndex < dotIndex] loop: the fuel is the number of
    iterations left, [dotIndex - filenameIndex]. *)
Fixpoint splitext_loop (p : string) (dotIndex : Z) (fuel : nat)
         (filenameIndex : Z) : string * string :=
  match fuel with
  | O => (p, "")
  | S k =>
      if negb (String.eqb (slice p filenameIndex (filenameIndex + 1)) ".")
      then (take (Z.to_nat dotIndex) p, drop (Z.to_nat dotIndex) p)
      else splitext_loop p dotIndex k (filenameIndex + 1)
  end.

Definition splitext (p : string) : string * string :=
  let sepIndex := rfind "/" p in
  let dotIndex := rfind "." p in
  if sepIndex <? dotIndex then
    let filenameIndex := sepIndex + 1 in
    splitext_loop p dotIndex (Z.to_nat (dotIndex - filenameIndex))
                  filenameIndex
  else (p, "").

End OsPath.
Import OsPath.

(** ** [classify_file_type] *)

Definition source_extensions : list string :=
  [".py"; ".js"; ".c"; ".cpp"; ".java"; ".go"; ".rs"; ".php"].
Definition documentation_extensions : list string :=
  [".md"; ".txt"; ".rst"; ".adoc"].
Definition config_extensions : list string :=
  [".json"; ".yml"; ".yaml"; ".xml"; ".toml"; ".ini"; ".cfg"].
Definition web_extensions : list string :=
  [".html"; ".css"; ".scss"].
Definition test_extensions : list string :=
  ["test.py"; "_test.py"].

(** The extension the classifier looks at: [os.path.splitext(p)[1].lower()]. *)
Definition file_extension_of (p : string) : string :=
  lower (snd (splitext p)).

Definition classify_file_type (file_path : option string) : string :=
  match file_path with
  | None => "Unknown"
  | Some "" => "Unknown"
  | Some p =>
      let ext := file_extension_of p in
      if str_in ext source_extensions then "Source"
      else if str_in ext documentation_extensions then "Documentation"
      else if str_in ext config_extensions then "Config"
      else if str_in ext web_extensions then "Web"
      else if str_in ext test_extensions || contains "test" p then "Test"
      else "Other"
  end.

(** The categories of the specification. *)
Definition categories : list string :=
  ["Source"; "Documentation"; "Config"; "Web"; "Test"; "Other"; "Unknown"].

(** ** Exceptions, the observable world and the monad of the scripts *)

Inductive exn : Type :=
| CalledProcessError
| OSError
| FileNotFoundError
| EmptyDataError
| KeyError
| ValueError
| ZeroDivisionError.

Inductive result (A : Type) : Type :=
| Ok (a : A)
| Raise (e : exn).
Arguments Ok {A} a.
Arguments Raise {A} e.

(** One call of [subprocess.check_output(cmd, cwd=...)]. *)
Record Invocation : Type := mkInvocation {
  inv_cmd : list string;
  inv_cwd : string
}.

(** What the operating system answers: the child ran and exited with a
    return code and its captured output ([stderr] is redirected into it), or
    it could not be started at all ([Popen] raises [OSError]: no [git] on the
    [PATH], a working directory that is gone). *)
Inductive ProcOutcome : Type :=
| Exited (returncode : Z) (output : list Byte.byte)
| NotStarted.

(** pydriller's [ModifiedFile] and [Commit], the fields the script reads. *)
Record ModifiedFile : Type := mkModifiedFile {
  old_path : option string;
  new_path : option string
}.

Record Commit : Type := mkCommit {
  hash : string;
  parents : list string;
  msg : string;
  project_path : string;
  modified_files : list ModifiedFile
}.

(** One row of the dataset: the dictionary appended to [rows]. *)
Record ComparisonRecord : Type := mkRecord {
  repository : string;
  old_file_path : option string;
  new_file_path : option string;
  commit_sha : string;
  parent_commit_sha : option string;
  commit_message : string;
  file_type : string;
  file_extension : string;
  diff_myers : string;
  diff_histogram : string;
  discrepancy : string
}.

(** A printed f-string: its literal text with [{}] (and the format
    specification) in place of each field, and the values of the fields. *)
Inductive value : Type :=
| VStr (s : string)
| VInt (n : Z)
| VNum (q : Q).

Record line : Type := Print {
  template : string;
  fields : list value
}.

(** The statistics a figure is drawn from (see [create_final_clear_visualization]). *)
Record repo_datum : Type := mkRepoDatum {
  rd_repo : string;
  rd_rate : Q;
  rd_total : Z;
  rd_disagreements : Z
}.

Record ft_stat : Type := mkFtStat {
  fs_file_type : string;
  fs_total : Z;
  fs_disagreements : Z;
  fs_rate : Q
}.

Record Figure : Type := mkFigure {
  pie_sizes : list Z;
  pie_labels : list line;
  repo_bars : list repo_datum;
  file_type_bars : list ft_stat;
  summary_text : line
}.

(** Everything the scripts can change: the log of started processes, the
    local list [rows] of [main], the console, the frame handed to [to_csv]
    and the figure handed to [savefig]. *)
Record World : Type := mkWorld {
  calls : list Invocation;
  rows : list ComparisonRecord;
  stdout : list line;
  dataset_csv : option (list ComparisonRecord);
  figure_png : option Figure
}.

Definition empty_world : World := mkWorld [] [] [] None None.

(** The collaborators outside the repository: the process launcher (its
    answer may depend on the calls made so far), the UTF-8 decoder with
    replacement, the file system, the commit miner, and the interpreter's
    [str.upper] and [str.title]. *)
Class Platform : Type := {
  run_process : list Invocation -> Invocation -> ProcOutcome;
  decode_utf8_replace : list Byte.byte -> string;
  path_exists : string -> bool;
  traverse_commits : string -> list Commit;
  str_upper : string -> string;
  str_title : string -> string
}.

Definition M (A : Type) : Type := World -> result A * World.

Definition ret {A} (a : A) : M A := fun w => (Ok a, w).

Definition raise {A} (e : exn) : M A := fun w => (Raise e, w).

Definition bind {A B} (m : M A) (k : A -> M B) : M B :=
  fun w =>
    match m w with
    | (Ok a, w') => k a w'
    | (Raise e, w') => (Raise e, w')
    end.

Notation "x <- m ;; k" := (bind m (fun x => k))
  (at level 61, m at next level, right associativity).
Notation "m ;;; k" := (bind m (fun _ => k))
  (at level 61, right associativity).

Definition exn_eqb (a b : exn) : bool :=
  match a, b with
  | CalledProcessError, CalledProcessError
  | OSError, OSError
  | FileNotFoundError, FileNotFoundError
  | EmptyDataError, EmptyDataError
  | KeyError, KeyError
  | ValueError, ValueError
  | ZeroDivisionError, ZeroDivisionError => true
  | _, _ => false
  end.

(** [try: m  except e: handler]. *)
Definition try_except {A} (m : M A) (e : exn) (handler : M A) : M A :=
  fun w =>
    match m w with
    | (Raise e', w') => if exn_eqb e' e then handler w' else (Raise e', w')
    | r => r
    end.

(** [for x in l: body x]; [continue] is the body returning early. *)
Fixpoint for_each {A} (l : list A) (body : A -> M unit) : M unit :=
  match l with
  | [] => ret tt
  | x :: l' => body x ;;; for_each l' body
  end.

(** The world after one more line on the console. *)
Definition with_line (w : World) (l : line) : World :=
  mkWorld (calls w) (rows w) (stdout w ++ [l]) (dataset_csv w) (figure_png w).

(** The world after a figure is saved. *)
Definition with_figure (w : World) (f : Figure) : World :=
  mkWorld (calls w) (rows w) (stdout w) (dataset_csv w) (Some f).

Definition print (t : string) (args : list value) : M unit :=
  fun w => (Ok tt, with_line w (Print t args)).

Definition set_rows (r : list ComparisonRecord) : M unit :=
  fun w => (Ok tt, mkWorld (calls w) r (stdout w) (dataset_csv w) (figure_png w)).

Definition get_rows : M (list ComparisonRecord) :=
  fun w => (Ok (rows w), w).

(** [rows.append(r)]. *)
Definition rows_append (r : ComparisonRecord) : M unit :=
  fun w => (Ok tt, mkWorld (calls w) (rows w ++ [r]) (stdout w)
                           (dataset_csv w) (figure_png w)).

(** [df.to_csv("dataset.csv", index=False)]. *)
Definition to_csv (df : list ComparisonRecord) : M unit :=
  fun w => (Ok tt, mkWorld (calls w) (rows w) (stdout w) (Some df) (figure_png w)).

(** [plt.savefig('Figure_1.png', ...)]. *)
Definition savefig (f : Figure) : M unit :=
  fun w => (Ok tt, with_figure w f).

(** [subprocess.check_output(cmd, cwd=cwd, stderr=subprocess.STDOUT)]: the
    call is logged; a child that cannot be started raises [OSError], a
    non-zero return code raises [CalledProcessError], and otherwise the
    captured output is returned. *)
Definition check_output `{Platform} (cmd : list string) (cwd : string)
  : M (list Byte.byte) :=
  fun w =>
    let inv := mkInvocation cmd cwd in
    let w' := mkWorld (calls w ++ [inv]) (rows w) (stdout w)
                      (dataset_csv w) (figure_png w) in
    match run_process (calls w) inv with
    | NotStarted => (Raise OSError, w')
    | Exited rc out => if rc =? 0 then (Ok out, w')
                       else (Raise CalledProcessError, w')
    end.

(** The new-line character of the printed texts. *)
Definition nl : string := String (ascii_of_nat 10) "".

(** Python's [a / b] on integers. *)
Definition py_truediv (a b : Z) : M Q :=
  if b =? 0 then raise ZeroDivisionError
  else ret (inject_Z a / inject_Z b)%Q.

(** [len(l)]. *)
Definition len {A} (l : list A) : Z := Z.of_nat (List.length l).

(** [df[df[column] == v]] for the string columns the scripts select on. *)
Definition where_eq (column : ComparisonRecord -> string) (v : string)
           (df : list ComparisonRecord) : list ComparisonRecord :=
  filter (fun r => String.eqb (column r) v) df.

(** ** [simple_analysis.py] *)

Definition repositories : list (string * string) :=
  [ ("fastapi", "/home/set-iitgn-vm/STT_A4/fastapi");
    ("nginx", "/home/set-iitgn-vm/STT_A4/nginx");
    ("openhands", "/home/set-iitgn-vm/STT_A4/OpenHands") ].

(** The list [cmd] that [get_diff] builds. *)
Definition diff_cmd (algorithm parent child path : string) : list string :=
  [ "git"; "diff"; "-w"; "--ignore-blank-lines";
    "--diff-algorithm=" ++ algorithm;
    parent; child; "--"; path ].

Definition get_diff `{Platform} (repo_dir : string) (parent : option string)
           (child : string) (path : option string) (algorithm : string)
  : M (option string) :=
  if negb (truthy parent) || negb (truthy path) then ret None
  else
    match parent, path with
    | Some parent', Some path' =>
        let cmd := diff_cmd algorithm parent' child path' in
        try_except
          (result <- check_output cmd repo_dir ;;
           ret (Some (decode_utf8_replace result)))
          CalledProcessError
          (ret None)
    | _, _ => ret None
    end.

(** [commit.msg[:100] + "..." if len(commit.msg) > 100 else commit.msg]. *)
Definition truncated_message (m : string) : string :=
  if 100 <? Z.of_nat (String.length m) then take 100 m ++ "..." else m.

(** The body of [for file in commit.modified_files]. *)
Definition process_file `{Platform} (repo_name : string) (commit : Commit)
           (parent : option string) (file : ModifiedFile) : M unit :=
  let repo_dir := project_path commit in
  let path := py_or (new_path file) (old_path file) in
  if negb (truthy path) then ret tt
  else
    diff_myers <- get_diff repo_dir parent (hash commit) path "myers" ;;
    diff_histogram <- get_diff repo_dir parent (hash commit) path "histogram" ;;
    match diff_myers, diff_histogram with
    | Some myers, Some histogram =>
        let discrepancy :=
          if negb (String.eqb myers histogram) then "Yes" else "No" in
        rows_append
          {| repository := repo_name;
             old_file_path := old_path file;
             new_file_path := new_path file;
             commit_sha := hash commit;
             parent_commit_sha := parent;
             commit_message := truncated_message (msg commit);
             file_type := classify_file_type path;
             file_extension :=
               match path with
               | Some p => if truthy path then file_extension_of p else ""
               | None => ""
               end;
             diff_myers := myers;
             diff_histogram := histogram;
             discrepancy := discrepancy |}
    | _, _ => ret tt
    end.

(** The body of [for commit in tqdm(commits, ...)]. *)
Definition process_commit `{Platform} (repo_name : string) (commit : Commit)
  : M unit :=
  let parent :=
    match parents commit with
    | [] => None
    | p :: _ => Some p
    end in
  if negb (truthy parent) then ret tt
  else for_each (modified_files commit) (process_file repo_name commit parent).

(** The body of [for repo_name, repo_path in repositories]. *)
Definition process_repository `{Platform} (repo : string * string) : M unit :=
  let '(repo_name, repo_path) := repo in
  print (nl ++ "Analyzing {} repository...") [VStr repo_name] ;;;
  if negb (path_exists repo_path)
  then print "Repository path {} does not exist, skipping..." [VStr repo_path]
  else
    let commits := firstn 1000 (traverse_commits repo_path) in
    for_each commits (process_commit repo_name).

(** The traversal part of [main], over any list of repositories. *)
Definition collect `{Platform} (repos : list (string * string)) : M unit :=
  set_rows [] ;;;
  for_each repos process_repository.

(** The report at the end of [main].  [pd.DataFrame([])] has no columns, so
    [df['discrepancy']] raises [KeyError] on it. *)
Definition report_analysis (df : list ComparisonRecord) : M unit :=
  print (nl ++ repeat_str "=" 60) [] ;;;
  print "ANALYSIS COMPLETE" [] ;;;
  print (repeat_str "=" 60) [] ;;;
  print "Total files analyzed: {:,}" [VInt (len df)] ;;;
  match df with [] => raise KeyError | _ => ret tt end ;;;
  print "Algorithm disagreements: {:,}"
        [VInt (len (where_eq discrepancy "Yes" df))] ;;;
  q <- py_truediv (len (where_eq discrepancy "No" df)) (len df) ;;
  print "Agreement rate: {:.2f}%" [VNum (q * 100)%Q] ;;;
  print (nl ++ "Repository breakdown:") [] ;;;
  for_each repositories (fun '(repo_name, _) =>
    let repo_df := where_eq repository repo_name df in
    if 0 <? len repo_df then
      let disagreements := len (where_eq discrepancy "Yes" repo_df) in
      r <- py_truediv disagreements (len repo_df) ;;
      print "  {}: {:,}/{:,} disagreements ({:.2f}%)"
            [VStr repo_name; VInt disagreements; VInt (len repo_df);
             VNum (r * 100)%Q]
    else ret tt) ;;;
  print (nl ++ "Dataset saved as 'dataset.csv'") [].

Definition main `{Platform} : M (list ComparisonRecord) :=
  collect repositories ;;;
  df <- get_rows ;;
  to_csv df ;;;
  report_analysis df ;;;
  ret df.

(** ** Frames: the pandas operations of the two reporting scripts *)

(** What [pd.read_csv('dataset.csv')] finds: no file, a file without a
    header line (nothing to parse), or a table of records (possibly none). *)
Inductive dataset_file : Type :=
| Absent
| NoColumns
| Table (records : list ComparisonRecord).

Definition read_csv (f : dataset_file) : M (list ComparisonRecord) :=
  match f with
  | Absent => raise FileNotFoundError
  | NoColumns => raise EmptyDataError
  | Table records => ret records
  end.

(** [Series.unique()]: the distinct values in order of first appearance. *)
Fixpoint unique (l : list string) : list string :=
  match l with
  | [] => []
  | x :: l' => x :: filter (fun y => negb (String.eqb y x)) (unique l')
  end.

(** [sorted(l)] on strings (code-point order, stable). *)
Fixpoint insert_sorted (x : string) (l : list string) : list string :=
  match l with
  | [] => [x]
  | y :: l' => if String.ltb x y then x :: l else y :: insert_sorted x l'
  end.

Fixpoint sorted (l : list string) : list string :=
  match l with
  | [] => []
  | x :: l' => insert_sorted x (sorted l')
  end.

(** The group keys of [df.groupby(column)]: sorted, without repeats. *)
Definition group_keys (column : ComparisonRecord -> string)
           (df : list ComparisonRecord) : list string :=
  sorted (unique (map column df)).

(** [df.groupby(column).size()]. *)
Definition groupby_size (column : ComparisonRecord -> string)
           (df : list ComparisonRecord) : list (string * Z) :=
  map (fun k => (k, len (where_eq column k df))) (group_keys column df).

(** [series.get(key, default)]. *)
Fixpoint series_get (s : list (string * Z)) (key : string) (default : Z) : Z :=
  match s with
  | [] => default
  | (k, v) :: s' => if String.eqb k key then v else series_get s' key default
  end.

(** [(x / total * 100) if total > 0 else 0]. *)
Definition guarded_rate (x total : Z) : M Q :=
  if 0 <? total then q <- py_truediv x total ;; ret (q * 100)%Q
  else ret 0%Q.

(** A [for] loop that builds a local value. *)
Fixpoint for_acc {A S} (l : list A) (body : A -> S -> M S) (s : S) : M S :=
  match l with
  | [] => ret s
  | x :: l' => s' <- body x s ;; for_acc l' body s'
  end.

(** [max(l, key=...)] and [min(l, key=...)]: the first extremal element;
    [ValueError] on an empty list. *)
Definition Qlt_bool (x y : Q) : bool := negb (Qle_bool y x).

Fixpoint first_max {A} (key : A -> Q) (best : A) (l : list A) : A :=
  match l with
  | [] => best
  | x :: l' => first_max key (if Qlt_bool (key best) (key x) then x else best) l'
  end.

Fixpoint first_min {A} (key : A -> Q) (best : A) (l : list A) : A :=
  match l with
  | [] => best
  | x :: l' => first_min key (if Qlt_bool (key x) (key best) then x else best) l'
  end.

Definition py_max {A} (key : A -> Q) (l : list A) : M A :=
  match l with
  | [] => raise ValueError
  | x :: l' => ret (first_max key x l')
  end.

Definition py_min {A} (key : A -> Q) (l : list A) : M A :=
  match l with
  | [] => raise ValueError
  | x :: l' => ret (first_min key x l')
  end.

(** ** [summary.py] *)

Record repo_stat : Type := mkRepoStat {
  rs_repo : string;
  rs_discrepancies : Z;
  rs_total_files : Z;
  rs_rate : Q
}.

(** [df.groupby('repository').agg(...)] with the [rate] column added: one
    row per repository of the frame, so [rs_total_files] is never zero. *)
Definition repo_stats_of (df : list ComparisonRecord) : list repo_stat :=
  map (fun repo =>
         let g := where_eq repository repo df in
         let d := len (where_eq discrepancy "Yes" g) in
         let t := len g in
         mkRepoStat repo d t (inject_Z d / inject_Z t * 100)%Q)
      (group_keys repository df).

(** [display_summary] after the frame is loaded, one definition per
    commented part of the function. *)

(** "Overall statistics". *)
Definition summarize_overall (df : list ComparisonRecord) : M unit :=
  let total_files := len df in
  let total_discrepancies := len (where_eq discrepancy "Yes" df) in
  q <- py_truediv total_discrepancies total_files ;;
  let discrepancy_rate := (q * 100)%Q in
  print (nl ++ "OVERALL RESULTS:") [] ;;;
  print "   Total file modifications analyzed: {}" [VInt total_files] ;;;
  print "   Total discrepancies found: {}" [VInt total_discrepancies] ;;;
  print "   Overall discrepancy rate: {:.2f}%" [VNum discrepancy_rate].

(** "Repository breakdown". *)
Definition summarize_repositories (repo_stats : list repo_stat) : M unit :=
  print (nl ++ "REPOSITORY BREAKDOWN:") [] ;;;
  for_each repo_stats (fun s =>
    print "   {}: {}/{} files ({:.1f}%)"
          [VStr (rs_repo s); VInt (rs_discrepancies s);
           VInt (rs_total_files s); VNum (rs_rate s)]).

(** "File type breakdown": the body of the loop, then the loop. *)
Definition print_file_type `{Platform}
           (file_type_discrepancies : list (string * Z))
           (entry : string * Z) : M unit :=
  let '(ft, total) := entry in
  let discrepancies := series_get file_type_discrepancies ft 0 in
  rate <- guarded_rate discrepancies total ;;
  print "   {}: {}/{} ({:.1f}%)"
        [VStr (str_title ft); VInt discrepancies; VInt total; VNum rate].

Definition summarize_file_types `{Platform}
           (file_type_discrepancies file_type_totals : list (string * Z))
  : M unit :=
  print (nl ++ "FILE TYPE ANALYSIS:") [] ;;;
  for_each file_type_totals (print_file_type file_type_discrepancies).

(** "Key insights". *)
Definition summarize_insights `{Platform}
           (file_type_discrepancies : list (string * Z))
           (repo_stats : list repo_stat) : M unit :=
  print (nl ++ "KEY INSIGHTS:") [] ;;;
  let source_discrepancies := series_get file_type_discrepancies "Source" 0 in
  print "   • Source code files had the most discrepancies ({} total)"
        [VInt source_discrepancies] ;;;
  max_rate_repo <- py_max rs_rate repo_stats ;;
  print "   • {} showed the highest discrepancy rate ({:.1f}%)"
        [VStr (str_title (rs_repo max_rate_repo)); VNum (rs_rate max_rate_repo)] ;;;
  let doc_discrepancies :=
    series_get file_type_discrepancies "Documentation" 0 in
  (if doc_discrepancies =? 0
   then print "   • Documentation files showed perfect agreement between algorithms" []
   else print "   • Documentation files had {} discrepancies"
              [VInt doc_discrepancies]) ;;;
  print "   • Analysis processed up to 1000 commits per repository" [].

Definition summarize `{Platform} (df : list ComparisonRecord) : M unit :=
  print (repeat_str "=" 60) [] ;;;
  print "DIFF ALGORITHM ANALYSIS SUMMARY" [] ;;;
  print (repeat_str "=" 60) [] ;;;
  summarize_overall df ;;;
  let repo_stats := repo_stats_of df in
  summarize_repositories repo_stats ;;;
  let file_type_discrepancies :=
    groupby_size file_type (where_eq discrepancy "Yes" df) in
  let file_type_totals := groupby_size file_type df in
  summarize_file_types file_type_discrepancies file_type_totals ;;;
  summarize_insights file_type_discrepancies repo_stats ;;;
  print (nl ++ "ANALYSIS COMPLETE!") [] ;;;
  print (repeat_str "=" 60) [].

Definition display_summary `{Platform} (f : dataset_file) : M unit :=
  loaded <- try_except
              (df <- read_csv f ;; ret (Some df))
              FileNotFoundError
              (print "Error: dataset.csv not found" [] ;;;
               print "Please run diff_analysis.py first" [] ;;;
               ret None) ;;
  match loaded with
  | None => ret tt
  | Some df => summarize df
  end.

(** ** [visualization.py] *)

(** The minimum number of records of a file type for a bar in the chart. *)
Definition min_samples : Z := 10.

(** Plot 2: one datum per repository, in sorted order. *)
Definition repo_data_of `{Platform} (df : list ComparisonRecord)
  : M (list repo_datum) :=
  for_acc (sorted (unique (map repository df)))
    (fun repo repo_data =>
       let repo_df := where_eq repository repo df in
       let total := len repo_df in
       let disagreements := len (where_eq discrepancy "Yes" repo_df) in
       rate <- guarded_rate disagreements total ;;
       ret (repo_data ++ [mkRepoDatum (str_upper repo) rate total disagreements])%list)
    [].

(** Plot 3: one entry per file type with at least [min_samples] records, in
    order of first appearance. *)
Definition file_type_stats_of `{Platform} (df : list ComparisonRecord)
  : M (list ft_stat) :=
  for_acc (unique (map file_type df))
    (fun ft file_type_stats =>
       let ft_df := where_eq file_type ft df in
       let total := len ft_df in
       let disagreements := len (where_eq discrepancy "Yes" ft_df) in
       rate <- guarded_rate disagreements total ;;
       if min_samples <=? total
       then ret (file_type_stats
                 ++ [mkFtStat (str_upper ft) total disagreements rate])%list
       else ret file_type_stats)
    [].

(** [pd.DataFrame(file_type_stats).sort_values('rate', ascending=True)]: a
    frame made from an empty list has no [rate] column ([KeyError]).  The
    model sorts by insertion, so entries of equal rate stay in list order;
    pandas promises no order among them. *)
Fixpoint insert_by_rate (x : ft_stat) (l : list ft_stat) : list ft_stat :=
  match l with
  | [] => [x]
  | y :: l' => if Qlt_bool (fs_rate x) (fs_rate y) then x :: l
               else y :: insert_by_rate x l'
  end.

Definition sort_by_rate (l : list ft_stat) : list ft_stat :=
  fold_left (fun acc x => insert_by_rate x acc) l [].

Definition sort_values_rate (file_type_stats : list ft_stat) : M (list ft_stat) :=
  match file_type_stats with
  | [] => raise KeyError
  | _ => ret (sort_by_rate file_type_stats)
  end.

Definition create_final_clear_visualization `{Platform} (f : dataset_file)
  : M (list ComparisonRecord) :=
  print "Loading dataset..." [] ;;;
  df <- read_csv f ;;
  print "Loaded {:,} records" [VInt (len df)] ;;;
  (* Plot 1 *)
  let agreement_count := len (where_eq discrepancy "No" df) in
  let disagreement_count := len (where_eq discrepancy "Yes" df) in
  let total := agreement_count + disagreement_count in
  agreement_pct <- guarded_rate agreement_count total ;;
  disagreement_pct <- guarded_rate disagreement_count total ;;
  let sizes := [agreement_count; disagreement_count] in
  let labels :=
    [ Print ("Agreement" ++ nl ++ "{:,} files" ++ nl ++ "{:.1f}%")
            [VInt agreement_count; VNum agreement_pct];
      Print ("Disagreement" ++ nl ++ "{:,} files" ++ nl ++ "{:.1f}%")
            [VInt disagreement_count; VNum disagreement_pct] ] in
  let '(pie, pie_text) :=
    if 0 <? disagreement_count then (sizes, labels)
    else ([agreement_count],
          [Print ("Perfect Agreement" ++ nl ++ "{:,} files" ++ nl ++ "100.0%")
                 [VInt agreement_count]]) in
  (* Plot 2 *)
  repo_data <- repo_data_of df ;;
  let repo_rates := map rd_rate repo_data in
  _ <- py_max (fun q => q) repo_rates ;;
  (* Plot 3 *)
  file_type_stats <- file_type_stats_of df ;;
  ft_df <- sort_values_rate file_type_stats ;;
  _ <- py_max (fun q => q) (map fs_rate ft_df) ;;
  (* Plot 4 *)
  let total_files := len df in
  let total_disagreements := len (where_eq discrepancy "Yes" df) in
  overall_agreement_rate <-
    guarded_rate (total_files - total_disagreements) total_files ;;
  overall_disagreement_rate <- guarded_rate total_disagreements total_files ;;
  best_repo <- py_min rd_rate repo_data ;;
  worst_repo <- py_max rd_rate repo_data ;;
  fts <- match file_type_stats with
         | [] => ret (mkFtStat "N/A" 0 0 0, mkFtStat "N/A" 0 0 0)
         | _ => best_ft <- py_min fs_rate file_type_stats ;;
                worst_ft <- py_max fs_rate file_type_stats ;;
                ret (best_ft, worst_ft)
         end ;;
  let '(best_ft, worst_ft) := fts in
  (* the text of the summary panel, abridged to its title and its fields *)
  let summary :=
    Print "Analysis Results Summary"
          [ VInt total_files; VInt total_disagreements;
            VNum overall_agreement_rate; VNum overall_disagreement_rate;
            VStr (rd_repo best_repo); VNum (rd_rate best_repo);
            VStr (rd_repo worst_repo); VNum (rd_rate worst_repo);
            VStr (fs_file_type worst_ft); VNum (fs_rate worst_ft);
            VStr (fs_file_type best_ft); VNum (fs_rate best_ft);
            VNum overall_agreement_rate ] in
  savefig (mkFigure pie pie_text repo_data ft_df summary) ;;;
  print "Visualization saved as 'Figure_1.png'" [] ;;;
  print (nl ++ "FINAL ANALYSIS SUMMARY:") [] ;;;
  print (repeat_str "=" 50) [] ;;;
  print "Total files analyzed: {:,}" [VInt total_files] ;;;
  print "Algorithm agreements: {:,} ({:.2f}%)"
        [VInt (total_files - total_disagreements); VNum overall_agreement_rate] ;;;
  print "Algorithm disagreements: {:,} ({:.2f}%)"
        [VInt total_disagreements; VNum overall_disagreement_rate] ;;;
  print "Most problematic file type: {} ({:.2f}% disagreement)"
        [VStr (fs_file_type worst_ft); VNum (fs_rate worst_ft)] ;;;
  print "Repository with most disagreements: {} ({:.2f}%)"
        [VStr (rd_repo worst_repo); VNum (rd_rate worst_repo)] ;;;
  print "Repository with best agreement: {} ({:.2f}% disagreement)"
        [VStr (rd_repo best_repo); VNum (rd_rate best_repo)] ;;;
  print (repeat_str "=" 50) [] ;;;
  ret df.

(** ** Scenarios: concrete collaborators to run the scripts on *)

(** A platform whose [git] answers by the invocation alone, with one
    repository (the first configured one) holding the given commits. *)
Definition scenario_platform (git : Invocation -> ProcOutcome)
           (commits : list Commit) : Platform :=
  {| run_process := fun _ inv => git inv;
     decode_utf8_replace := string_of_list_byte;
     path_exists := String.eqb "/home/set-iitgn-vm/STT_A4/fastapi";
     traverse_commits := fun _ => commits;
     str_upper := fun s => s;
     str_title := fun s => s |}.

(** Both algorithms print the same text. *)
Definition git_agrees (inv : Invocation) : ProcOutcome :=
  Exited 0 (list_byte_of_string "+added line").

(** The histogram run exits with status 1, the other run succeeds. *)
Definition git_histogram_fails (inv : Invocation) : ProcOutcome :=
  if str_in "--diff-algorithm=histogram" (inv_cmd inv)
  then Exited 1 (list_byte_of_string "fatal: bad revision")
  else Exited 0 (list_byte_of_string "+added line").

(** The two algorithms print different texts. *)
Definition git_disagrees (inv : Invocation) : ProcOutcome :=
  if str_in "--diff-algorithm=histogram" (inv_cmd inv)
  then Exited 0 (list_byte_of_string "+b")
  else Exited 0 (list_byte_of_string "+a").

(** No [git] executable can be started. *)
Definition git_missing (inv : Invocation) : ProcOutcome := NotStarted.

Definition scenario_file : ModifiedFile :=
  mkModifiedFile (Some "src/main.py") (Some "src/main.py").

Definition scenario_commit : Commit :=
  mkCommit "C" ["P"] "Add a line" "/repo" [scenario_file].

Definition root_commit : Commit :=
  mkCommit "R" [] "Initial commit" "/repo"
           [scenario_file; scenario_file; scenario_file].

Definition long_message : string := repeat_str "m" 150.

Definition long_commit : Commit :=
  mkCommit "L" ["P"] long_message "/repo" [scenario_file].

(** A record of the given repository, file type and outcome, as the
    reporting scripts read it back. *)
Definition sample_record (repo ft disc : string) : ComparisonRecord :=
  mkRecord repo None None "C" (Some "P") "m" ft "" "" "" disc.

(** Ten [Source] records without discrepancy and one [Other] record with
    one. *)
Definition scenario_dataset : list ComparisonRecord :=
  (List.repeat (sample_record "fastapi" "Source" "No") 10
   ++ [sample_record "fastapi" "Other" "Yes"])%list.

(** A machine on which none of the configured repositories is cloned. *)
Definition nothing_cloned : Platform :=
  {| run_process := fun _ inv => git_agrees inv;
     decode_utf8_replace := string_of_list_byte;
     path_exists := fun _ => false;
     traverse_commits := fun _ => [scenario_commit];
     str_upper := fun s => s;
     str_title := fun s => s |}.

(** ** The vocabulary of the statements *)

(** [appends Q m]: running [m] only adds rows at the end of [rows], and
    every added row satisfies [Q]; this holds whether [m] returns or raises. *)
Definition appends {A} (Q : ComparisonRecord -> Prop) (m : M A) : Prop :=
  forall w, exists new,
    rows (snd (m w)) = (rows w ++ new)%list /\ Forall Q new.

(** The record [process_file] appends for a file of [commit]. *)
Definition emitted_for (repo_name : string) (commit : Commit)
           (r : ComparisonRecord) : Prop :=
  repository r = repo_name
  /\ commit_sha r = hash commit
  /\ commit_message r = truncated_message (msg commit)
  /\ discrepancy r
     = (if negb (String.eqb (diff_myers r) (diff_histogram r))
        then "Yes" else "No").

(** The commits [main] walks through for a repository name. *)
Definition traversed `{Platform} (repo_name : string) (commit : Commit) : Prop :=
  exists repo_path,
    In (repo_name, repo_path) repositories
    /\ path_exists repo_path = true
    /\ In commit (firstn 1000 (traverse_commits repo_path)).

(** The value of [(x / total * 100) if total > 0 else 0]. *)
Definition rate_value (x total : Z) : Q :=
  if 0 <? total then (inject_Z x / inject_Z total * 100)%Q else 0%Q.

(** The dictionary the file-type loop builds for [ft]. *)
Definition ft_entry `{Platform} (df : list ComparisonRecord) (ft : string)
  : ft_stat :=
  let ft_df := where_eq file_type ft df in
  mkFtStat (str_upper ft) (len ft_df)
           (len (where_eq discrepancy "Yes" ft_df))
           (rate_value (len (where_eq discrepancy "Yes" ft_df)) (len ft_df)).

(** The list [file_type_stats] at the end of the loop. *)
Definition file_type_stats_value `{Platform} (df : list ComparisonRecord)
  : list ft_stat :=
  flat_map (fun ft =>
              if min_samples <=? len (where_eq file_type ft df)
              then [ft_entry df ft] else [])
           (unique (map file_type df)).

(** The list [repo_data] at the end of its loop. *)
Definition repo_data_value `{Platform} (df : list ComparisonRecord)
  : list repo_datum :=
  map (fun repo =>
         let repo_df := where_eq repository repo df in
         mkRepoDatum (str_upper repo)
                     (rate_value (len (where_eq discrepancy "Yes" repo_df))
                                 (len repo_df))
                     (len repo_df)
                     (len (where_eq discrepancy "Yes" repo_df)))
      (sorted (unique (map repository df))).

(** [extends w w']: the console of [w'] continues the console of [w]. *)
Definition extends (w w' : World) : Prop :=
  exists more, stdout w' = (stdout w ++ more)%list.

(** A part of a script that returns normally and only prints. *)
Definition prints_only (m : M unit) : Prop :=
  forall w, exists w', m w = (Ok tt, w') /\ extends w w'.

(** The line [display_summary] prints for the file type [ft]. *)
Definition file_type_line `{Platform} (df : list ComparisonRecord) (ft : string)
  : line :=
  let discrepancies :=
    len (where_eq file_type ft (where_eq discrepancy "Yes" df)) in
  let total := len (where_eq file_type ft df) in
  Print "   {}: {}/{} ({:.1f}%)"
        [VStr (str_title ft); VInt discrepancies; VInt total;
         VNum (rate_value discrepancies total)].

(** * Properties *)

(** ** The classifier *)

Section Classifier.

Lemma str_in_In (x : string) (l : list string) :
  str_in x l = true <-> In x l.
Proof.
  unfold str_in. rewrite existsb_exists. split.
  - intros [y [Hy Heq]]. apply String.eqb_eq in Heq. now subst.
  - intros Hx. exists x. split; [assumption | apply String.eqb_refl].
Qed.

Lemma str_in_not_In (x : string) (l : list string) :
  str_in x l = false <-> ~ In x l.
Proof.
  rewrite <- str_in_In. destruct (str_in x l); split; congruence.
Qed.

Lemma rfind_lower_bound (c : ascii) (s : string) : -1 <= rfind c s.
Proof.
  induction s as [|a s IH]; simpl; [lia|].
  destruct (0 <=? rfind c s) eqn:E; [apply Z.leb_le in E; lia|].
  destruct (Ascii.eqb a c); lia.
Qed.

(** At a non-negative [rfind] index the string continues with the
    character looked for. *)
Lemma drop_rfind (c : ascii) (s : string) :
  0 <= rfind c s ->
  exists rest, drop (Z.to_nat (rfind c s)) s = String c rest.
Proof.
  induction s as [|a s IH]; simpl; [lia|].
  destruct (0 <=? rfind c s) eqn:E.
  - apply Z.leb_le in E. intros _.
    replace (Z.to_nat (rfind c s + 1)) with (S (Z.to_nat (rfind c s))) by lia.
    simpl. now apply IH.
  - destruct (Ascii.eqb a c) eqn:Ea; [|lia].
    intros _. apply Ascii.eqb_eq in Ea. subst a. simpl. now exists s.
Qed.

Lemma splitext_loop_ext (p : string) (dotIndex : Z) (fuel : nat) (i : Z) :
  snd (splitext_loop p dotIndex fuel i) = ""
  \/ snd (splitext_loop p dotIndex fuel i) = drop (Z.to_nat dotIndex) p.
Proof.
  revert i. induction fuel as [|k IH]; intros i; simpl; [now left|].
  destruct (negb _); [now right | apply IH].
Qed.

(** An extension is empty or begins with the dot. *)
Lemma splitext_ext_dot (p : string) :
  snd (splitext p) = "" \/ exists rest, snd (splitext p) = String "." rest.
Proof.
  unfold splitext.
  destruct (rfind "/" p <? rfind "." p) eqn:E; [|now left].
  apply Z.ltb_lt in E.
  destruct (splitext_loop_ext p (rfind "." p)
              (Z.to_nat (rfind "." p - (rfind "/" p + 1))) (rfind "/" p + 1))
    as [H | H]; rewrite H; [now left | right].
  apply drop_rfind. pose proof (rfind_lower_bound "/" p). lia.
Qed.

Lemma lower_char_dot : lower_char "." = "."%char.
Proof. reflexivity. Qed.

Lemma file_extension_dot (p : string) :
  file_extension_of p = ""
  \/ exists rest, file_extension_of p = String "." rest.
Proof.
  unfold file_extension_of.
  destruct (splitext_ext_dot p) as [H | [rest H]]; rewrite H; simpl.
  - now left.
  - right. now exists (lower rest).
Qed.

(** The first disjunct of the [Test] branch is dead code. *)
Lemma test_extension_never (p : string) :
  str_in (file_extension_of p) test_extensions = false.
Proof.
  apply str_in_not_In. unfold test_extensions.
  destruct (file_extension_dot p) as [H | [rest H]]; rewrite H; simpl;
    intros [F | [F | []]]; discriminate F.
Qed.

Lemma contains_nonempty (needle : string) :
  needle <> "" -> contains needle "" = false.
Proof. destruct needle; [congruence | reflexivity]. Qed.

(** C4: [classify_file_type] is a total function into the seven categories;
    a null path and an empty path are [Unknown]. *)
Theorem classify_file_type_total :
  (forall file_path : option string,
      In (classify_file_type file_path) categories)
  /\ classify_file_type None = "Unknown"
  /\ classify_file_type (Some "") = "Unknown".
Proof.
  split; [|split; reflexivity].
  intros [[|c s]|]; unfold classify_file_type, categories.
  - simpl; tauto.
  - set (ext := file_extension_of (String c s)).
    destruct (str_in ext source_extensions); [simpl; tauto|].
    destruct (str_in ext documentation_extensions); [simpl; tauto|].
    destruct (str_in ext config_extensions); [simpl; tauto|].
    destruct (str_in ext web_extensions); [simpl; tauto|].
    destruct (str_in ext test_extensions || contains "test" (String c s));
      simpl; tauto.
  - simpl; tauto.
Qed.

(** C5: a path with a source-code extension is [Source], whatever else the
    path contains; the [Test] branch is never reached for it. *)
Theorem source_extension_is_Source (p : string) :
  In (file_extension_of p) source_extensions ->
  classify_file_type (Some p) = "Source".
Proof.
  intros Hin. destruct p as [|c s].
  - simpl in Hin. repeat destruct Hin as [Hin | Hin]; discriminate || contradiction.
  - unfold classify_file_type. apply str_in_In in Hin. now rewrite Hin.
Qed.

Lemma source_extension_is_Source_witness :
  contains "test" "test_foo.py" = true
  /\ classify_file_type (Some "test_foo.py") = "Source".
Proof.
  split; [reflexivity|].
  apply (source_extension_is_Source "test_foo.py").
  left; reflexivity.
Defined.

(** C10: a path that contains "test" and whose extension is in none of the
    four extension sets is [Test]; the disjunct on the extension itself is
    never true, as an extension is empty or starts with a dot. *)
Theorem test_branch_reachable :
  (forall p : string,
      contains "test" p = true ->
      ~ In (file_extension_of p) source_extensions ->
      ~ In (file_extension_of p) documentation_extensions ->
      ~ In (file_extension_of p) config_extensions ->
      ~ In (file_extension_of p) web_extensions ->
      classify_file_type (Some p) = "Test")
  /\ (forall p : string, str_in (file_extension_of p) test_extensions = false).
Proof.
  split; [|exact test_extension_never].
  intros p Ht Hs Hd Hc Hw.
  destruct p as [|c s]; [discriminate Ht|].
  unfold classify_file_type.
  apply str_in_not_In in Hs, Hd, Hc, Hw.
  now rewrite Hs, Hd, Hc, Hw, Ht, orb_true_r.
Qed.

Lemma test_branch_reachable_witness :
  classify_file_type (Some "tests/data.dat") = "Test"
  /\ str_in (file_extension_of "test_foo.py") test_extensions = false.
Proof.
  destruct test_branch_reachable as [Hreach Hdead].
  split; [|exact (Hdead "test_foo.py")].
  apply (Hreach "tests/data.dat"); [reflexivity | | | |];
    simpl; intuition discriminate.
Defined.

Example classify_main_py : classify_file_type (Some "src/main.py") = "Source".
Proof. reflexivity. Qed.

Example classify_readme :
  classify_file_type (Some "README.md") = "Documentation".
Proof. reflexivity. Qed.

Example classify_hidden : classify_file_type (Some "dir.d/.bashrc") = "Other".
Proof. reflexivity. Qed.

Example classify_upper_case : classify_file_type (Some "Makefile.YML") = "Config".
Proof. reflexivity. Qed.

Example splitext_tar_gz : splitext "a/b.tar.gz" = ("a/b.tar", ".gz").
Proof. reflexivity. Qed.

Example splitext_dots : splitext "a/...x" = ("a/...x", "").
Proof. reflexivity. Qed.

End Classifier.

(** ** Running the monad *)

Section Running.

Context {A B : Type}.

Lemma bind_ok (m : M A) (k : A -> M B) (w w' : World) (a : A) :
  m w = (Ok a, w') -> bind m k w = k a w'.
Proof. intros E. unfold bind. now rewrite E. Qed.

Lemma bind_raise (m : M A) (k : A -> M B) (w w' : World) (e : exn) :
  m w = (Raise e, w') -> bind m k w = (Raise e, w').
Proof. intros E. unfold bind. now rewrite E. Qed.

End Running.

(** ** Which operations append to [rows] *)

Section Appends.

Context {A B : Type} (Q : ComparisonRecord -> Prop).

Lemma appends_nothing (m : M A) :
  (forall w, rows (snd (m w)) = rows w) -> appends Q m.
Proof.
  intros E w. exists []. rewrite app_nil_r. split; [apply E | constructor].
Qed.

Lemma appends_ret (a : A) : appends Q (ret a).
Proof. now apply appends_nothing. Qed.

Lemma appends_raise (e : exn) : appends Q (@raise A e).
Proof. now apply appends_nothing. Qed.

Lemma appends_bind (m : M A) (k : A -> M B) :
  appends Q m -> (forall a, appends Q (k a)) -> appends Q (bind m k).
Proof.
  intros Hm Hk w. unfold bind.
  destruct (Hm w) as [n1 [E1 F1]].
  destruct (m w) as [[a | e] w1]; simpl in E1.
  - destruct (Hk a w1) as [n2 [E2 F2]].
    exists (n1 ++ n2)%list. rewrite E2, E1, app_assoc.
    split; [reflexivity | now apply Forall_app].
  - exists n1. now split.
Qed.

Lemma appends_try_except (m handler : M A) (e : exn) :
  appends Q m -> appends Q handler -> appends Q (try_except m e handler).
Proof.
  intros Hm Hh w. unfold try_except.
  destruct (Hm w) as [n1 [E1 F1]].
  destruct (m w) as [[a | e'] w1]; simpl in E1.
  - exists n1. now split.
  - destruct (exn_eqb e' e).
    + destruct (Hh w1) as [n2 [E2 F2]].
      exists (n1 ++ n2)%list. rewrite E2, E1, app_assoc.
      split; [reflexivity | now apply Forall_app].
    + exists n1. now split.
Qed.

Lemma appends_weaken (Q' : ComparisonRecord -> Prop) (m : M A) :
  (forall r, Q' r -> Q r) -> appends Q' m -> appends Q m.
Proof.
  intros HQ Hm w. destruct (Hm w) as [new [E F]].
  exists new. split; [assumption|].
  eapply Forall_impl; eassumption.
Qed.

End Appends.

Lemma appends_for_each {A} (Q : ComparisonRecord -> Prop) (l : list A)
      (body : A -> M unit) :
  (forall x, In x l -> appends Q (body x)) -> appends Q (for_each l body).
Proof.
  induction l as [|x l IH]; intros Hb; simpl.
  - apply appends_ret.
  - apply appends_bind.
    + apply Hb. now left.
    + intros _. apply IH. intros y Hy. apply Hb. now right.
Qed.

Lemma appends_print (Q : ComparisonRecord -> Prop) (t : string)
      (args : list value) : appends Q (print t args).
Proof. now apply appends_nothing. Qed.

Lemma appends_rows_append (Q : ComparisonRecord -> Prop) (r : ComparisonRecord) :
  Q r -> appends Q (rows_append r).
Proof.
  intros Hr w. exists [r]. split; [reflexivity | now constructor].
Qed.

Lemma appends_check_output `{Platform} (Q : ComparisonRecord -> Prop)
      (cmd : list string) (cwd : string) : appends Q (check_output cmd cwd).
Proof.
  apply appends_nothing. intros w. unfold check_output.
  destruct (run_process _ _) as [rc out|]; [destruct (rc =? 0)|]; reflexivity.
Qed.

Lemma appends_get_diff `{Platform} (Q : ComparisonRecord -> Prop)
      (repo_dir : string) (parent : option string) (child : string)
      (path : option string) (algorithm : string) :
  appends Q (get_diff repo_dir parent child path algorithm).
Proof.
  unfold get_diff.
  destruct (negb (truthy parent) || negb (truthy path)); [apply appends_ret|].
  destruct parent as [pa|], path as [pt|]; try apply appends_ret.
  apply appends_try_except; [|apply appends_ret].
  apply appends_bind; [apply appends_check_output|].
  intros out. apply appends_ret.
Qed.

(** ** [get_diff] *)

Section GetDiff.

Context `{Platform}.

Lemma get_diff_started (repo_dir pa child pt algorithm : string) (w : World) :
  truthy (Some pa) = true -> truthy (Some pt) = true ->
  let inv := mkInvocation (diff_cmd algorithm pa child pt) repo_dir in
  get_diff repo_dir (Some pa) child (Some pt) algorithm w
  = (match run_process (calls w) inv with
     | Exited rc out =>
         if rc =? 0 then Ok (Some (decode_utf8_replace out)) else Ok None
     | NotStarted => Raise OSError
     end,
     mkWorld (calls w ++ [inv]) (rows w) (stdout w) (dataset_csv w)
             (figure_png w)).
Proof.
  intros Hpa Hpt inv. unfold get_diff. rewrite Hpa, Hpt.
  change (negb true || negb true) with false. cbv iota.
  unfold try_except, bind, check_output. fold inv.
  destruct (run_process (calls w) inv) as [rc out|]; [|reflexivity].
  destruct (rc =? 0); reflexivity.
Qed.

(** C7, as the code has it: without a parent or a path nothing is started
    and the result is [None]; a started [git] that exits with a non-zero
    status gives [None], one that exits with status zero gives the decoded
    output; and when [git] cannot be started the [OSError] reaches the
    caller. *)
Theorem get_diff_outcomes (repo_dir : string) (parent : option string)
        (child : string) (path : option string) (algorithm : string)
        (w : World) :
  (truthy parent = false \/ truthy path = false ->
   get_diff repo_dir parent child path algorithm w = (Ok None, w))
  /\ (forall pa pt : string,
        parent = Some pa -> path = Some pt ->
        truthy parent = true -> truthy path = true ->
        let inv := mkInvocation (diff_cmd algorithm pa child pt) repo_dir in
        let run := get_diff repo_dir parent child path algorithm w in
        calls (snd run) = (calls w ++ [inv])%list
        /\ (forall rc out, run_process (calls w) inv = Exited rc out ->
                           rc <> 0 -> fst run = Ok None)
        /\ (forall out, run_process (calls w) inv = Exited 0 out ->
                        fst run = Ok (Some (decode_utf8_replace out)))
        /\ (run_process (calls w) inv = NotStarted ->
            fst run = Raise OSError)).
Proof.
  split.
  - intros [Hp | Hp]; unfold get_diff; rewrite Hp; simpl;
      [|rewrite orb_true_r]; reflexivity.
  - intros pa pt -> -> Hpa Hpt inv run. subst run.
    rewrite (get_diff_started repo_dir pa child pt algorithm w Hpa Hpt).
    fold inv. simpl. split; [reflexivity|]. repeat split.
    + intros rc out -> Hrc. apply Z.eqb_neq in Hrc. now rewrite Hrc.
    + now intros out ->.
    + now intros ->.
Qed.

End GetDiff.

Lemma get_diff_outcomes_witness :
  @get_diff (scenario_platform git_agrees []) "/repo" None "C"
            (Some "src/main.py") "myers" empty_world
  = (Ok None, empty_world)
  /\ fst (@get_diff (scenario_platform git_histogram_fails []) "/repo"
                   (Some "P") "C" (Some "src/main.py") "histogram" empty_world)
     = Ok None
  /\ fst (@get_diff (scenario_platform git_histogram_fails []) "/repo"
                   (Some "P") "C" (Some "src/main.py") "myers" empty_world)
     = Ok (Some "+added line").
Proof.
  split; [|split].
  - apply (@get_diff_outcomes (scenario_platform git_agrees [])). now left.
  - destruct (@get_diff_outcomes (scenario_platform git_histogram_fails [])
                "/repo" (Some "P") "C" (Some "src/main.py") "histogram"
                empty_world) as [_ Hrun].
    destruct (Hrun "P" "src/main.py" eq_refl eq_refl eq_refl eq_refl)
      as [_ [Hfail _]].
    apply (Hfail 1 (list_byte_of_string "fatal: bad revision"));
      [reflexivity | discriminate].
  - destruct (@get_diff_outcomes (scenario_platform git_histogram_fails [])
                "/repo" (Some "P") "C" (Some "src/main.py") "myers"
                empty_world) as [_ Hrun].
    destruct (Hrun "P" "src/main.py" eq_refl eq_refl eq_refl eq_refl)
      as [_ [_ [Hok _]]].
    apply (Hok (list_byte_of_string "+added line")). reflexivity.
Defined.

(** C7, as the specification words it (every outcome other than a missing
    argument or a non-zero status returns the decoded text), fails when
    [git] cannot be started: parent and path are present, there is no exit
    status, and [get_diff] raises. *)
Lemma get_diff_propagates_OSError :
  fst (@get_diff (scenario_platform git_missing []) "/repo" (Some "P") "C"
                 (Some "src/main.py") "myers" empty_world)
  = Raise OSError.
Proof. reflexivity. Qed.

(** ** The comparison engine: what [main] appends to [rows] *)

Ltac appends_steps :=
  repeat first
    [ apply appends_ret
    | apply appends_raise
    | apply appends_print
    | apply appends_get_diff
    | apply appends_bind; [|intro]
    | progress cbv beta ].

Section Engine.

Context `{Platform}.

Lemma appends_process_file (repo_name : string) (commit : Commit)
      (parent : option string) (file : ModifiedFile) :
  appends (emitted_for repo_name commit)
          (process_file repo_name commit parent file).
Proof.
  unfold process_file.
  destruct (negb (truthy (py_or (new_path file) (old_path file))));
    [apply appends_ret|].
  appends_steps.
  destruct a as [myers|], a0 as [histogram|]; try apply appends_ret.
  apply appends_rows_append. unfold emitted_for. simpl. auto.
Qed.

Lemma appends_process_commit (repo_name : string) (commit : Commit) :
  appends (emitted_for repo_name commit) (process_commit repo_name commit).
Proof.
  unfold process_commit. destruct (negb (truthy _)); [apply appends_ret|].
  apply appends_for_each. intros file _. apply appends_process_file.
Qed.

Lemma appends_process_repository (repo : string * string) :
  In repo repositories ->
  appends (fun r => exists commit,
               traversed (repository r) commit
               /\ emitted_for (repository r) commit r)
          (process_repository repo).
Proof.
  destruct repo as [repo_name repo_path]. intros Hin. unfold process_repository.
  apply appends_bind; [apply appends_print | intros _].
  destruct (path_exists repo_path) eqn:Hex; simpl; [|apply appends_print].
  apply appends_for_each. intros commit Hc.
  eapply appends_weaken; [|apply (appends_process_commit repo_name commit)].
  intros r Hr. assert (Hrepo : repository r = repo_name) by apply Hr.
  exists commit. rewrite Hrepo. split; [|exact Hr].
  exists repo_path. auto.
Qed.

Lemma collect_rows (Q : ComparisonRecord -> Prop)
      (repos : list (string * string)) (w : World) :
  (forall repo, In repo repos -> appends Q (process_repository repo)) ->
  Forall Q (rows (snd (collect repos w))).
Proof.
  intros Hb. unfold collect, bind, set_rows.
  destruct (appends_for_each Q repos process_repository Hb
              (mkWorld (calls w) [] (stdout w) (dataset_csv w) (figure_png w)))
    as [new [E F]].
  rewrite E. exact F.
Qed.

Lemma appends_py_truediv (Q : ComparisonRecord -> Prop) (a b : Z) :
  appends Q (py_truediv a b).
Proof.
  unfold py_truediv. destruct (b =? 0); [apply appends_raise | apply appends_ret].
Qed.

Lemma appends_report_analysis (Q : ComparisonRecord -> Prop)
      (df : list ComparisonRecord) : appends Q (report_analysis df).
Proof.
  unfold report_analysis.
  do 4 (apply appends_bind; [apply appends_print | intros _]).
  apply appends_bind;
    [destruct df; [apply appends_raise | apply appends_ret] | intros _].
  apply appends_bind; [apply appends_print | intros _].
  apply appends_bind; [apply appends_py_truediv | intros q].
  do 2 (apply appends_bind; [apply appends_print | intros _]).
  apply appends_bind; [|intros _; apply appends_print].
  apply appends_for_each. intros [repo_name repo_path] _.
  destruct (0 <? _); [|apply appends_ret].
  apply appends_bind; [apply appends_py_truediv | intro; apply appends_print].
Qed.

(** After the traversal [main] only reads [rows]. *)
Lemma main_rows (w : World) :
  rows (snd (main w)) = rows (snd (collect repositories w)).
Proof.
  unfold main. unfold bind at 1.
  destruct (collect repositories w) as [[[] | e] w1]; [|reflexivity].
  assert (Htail : appends (fun _ => False)
                    (df <- get_rows ;; to_csv df ;;; report_analysis df ;;; ret df)).
  { apply appends_bind; [now apply appends_nothing | intros df].
    apply appends_bind; [now apply appends_nothing | intros _].
    apply appends_bind; [apply appends_report_analysis | intros _].
    apply appends_ret. }
  destruct (Htail w1) as [new [E F]]. simpl.
  destruct new as [|r new]; [now rewrite app_nil_r in E|].
  inversion F; contradiction.
Qed.

Lemma main_emitted (w : World) :
  Forall (fun r => exists commit,
              traversed (repository r) commit
              /\ emitted_for (repository r) commit r)
         (rows (snd (main w))).
Proof.
  rewrite main_rows. apply collect_rows.
  intros repo Hin. now apply appends_process_repository.
Qed.

(** C1: in every record [main] emits, [discrepancy] is "Yes" exactly when
    the two stored diff texts differ, and "No" exactly when they are equal. *)
Theorem discrepancy_consistency (w : World) :
  Forall (fun r =>
            (discrepancy r = "Yes" <-> diff_myers r <> diff_histogram r)
            /\ (discrepancy r = "No" <-> diff_myers r = diff_histogram r))
         (rows (snd (main w))).
Proof.
  eapply Forall_impl; [|apply main_emitted].
  intros r [commit [_ [_ [_ [_ Hd]]]]]. rewrite Hd.
  destruct (String.eqb_spec (diff_myers r) (diff_histogram r)) as [E | E];
    simpl; repeat split; intros; congruence.
Qed.

Lemma take_substring (n : nat) (s : string) : take n s = substring 0 n s.
Proof.
  revert s. induction n as [|n IH]; intros [|c s]; simpl; try reflexivity.
  now rewrite IH.
Qed.

(** C8: every record [main] emits comes from a traversed commit, and its
    [commit_message] is the first 100 characters of the commit's message
    followed by "..." when the message is longer than 100 characters, and
    the message itself otherwise. *)
Theorem commit_message_truncation (w : World) :
  Forall (fun r => exists commit,
              traversed (repository r) commit
              /\ commit_sha r = hash commit
              /\ ((100 < String.length (msg commit))%nat ->
                  commit_message r = substring 0 100 (msg commit) ++ "...")
              /\ ((String.length (msg commit) <= 100)%nat ->
                  commit_message r = msg commit))
         (rows (snd (main w))).
Proof.
  eapply Forall_impl; [|apply main_emitted].
  intros r [commit [Ht [_ [Hsha [Hmsg _]]]]].
  exists commit. split; [exact Ht | split; [exact Hsha|]].
  rewrite Hmsg. unfold truncated_message. rewrite <- take_substring.
  split; intros Hlen.
  - assert (E : (100 <? Z.of_nat (String.length (msg commit))) = true)
      by (apply Z.ltb_lt; lia).
    now rewrite E.
  - assert (E : (100 <? Z.of_nat (String.length (msg commit))) = false)
      by (apply Z.ltb_ge; lia).
    now rewrite E.
Qed.

End Engine.

(** ** Skipped commits and files *)

Lemma appends_none_rows {A} (m : M A) :
  appends (fun _ => False) m -> forall w, rows (snd (m w)) = rows w.
Proof.
  intros Hm w. destruct (Hm w) as [new [E F]].
  destruct new as [|r new]; [now rewrite app_nil_r in E|].
  inversion F; contradiction.
Qed.

Section Skips.

Context `{Platform}.

Lemma get_diff_rows (repo_dir : string) (parent : option string)
      (child : string) (path : option string) (algorithm : string) (w : World) :
  rows (snd (get_diff repo_dir parent child path algorithm w)) = rows w.
Proof. apply appends_none_rows, appends_get_diff. Qed.

(** C3: a file without any path, a commit without a parent, and a file for
    which one of the two [get_diff] calls returns [None] add nothing to
    [rows]; in the first two cases nothing at all happens. *)
Theorem skip_correctness :
  (forall repo_name commit parent file w,
      old_path file = None -> new_path file = None ->
      process_file repo_name commit parent file w = (Ok tt, w))
  /\ (forall repo_name commit w,
         parents commit = [] ->
         process_commit repo_name commit w = (Ok tt, w))
  /\ (forall repo_name commit parent file w,
         let path := py_or (new_path file) (old_path file) in
         let myers :=
           get_diff (project_path commit) parent (hash commit) path "myers" w in
         let histogram :=
           get_diff (project_path commit) parent (hash commit) path "histogram"
                    (snd myers) in
         fst myers = Ok None \/ fst histogram = Ok None ->
         rows (snd (process_file repo_name commit parent file w)) = rows w).
Proof.
  split; [|split].
  - intros repo_name commit parent file w Hold Hnew.
    unfold process_file. now rewrite Hold, Hnew.
  - intros repo_name commit w Hp. unfold process_commit. now rewrite Hp.
  - intros repo_name commit parent file w path myers histogram Hnone.
    unfold process_file. fold path.
    destruct (negb (truthy path)); [reflexivity|].
    unfold bind at 1. fold myers.
    pose proof (get_diff_rows (project_path commit) parent (hash commit) path
                              "myers" w) as Hm.
    fold myers in Hm.
    pose proof (get_diff_rows (project_path commit) parent (hash commit) path
                              "histogram" (snd myers)) as Hh.
    fold histogram in Hh.
    destruct myers as [[dm | e] w1]; simpl in *; [|exact Hm].
    unfold bind. subst histogram.
    destruct (get_diff (project_path commit) parent (hash commit) path
                       "histogram" w1) as [[dh | e] w2];
      simpl in *; [|congruence].
    destruct dm as [m|], dh as [h|]; simpl; try congruence.
    destruct Hnone; discriminate.
Qed.

End Skips.

Lemma skip_correctness_witness :
  @process_file (scenario_platform git_agrees []) "fastapi" scenario_commit
                (Some "P") (mkModifiedFile None None) empty_world
  = (Ok tt, empty_world)
  /\ @process_commit (scenario_platform git_agrees []) "fastapi" root_commit
                     empty_world
     = (Ok tt, empty_world)
  /\ rows (snd (@process_file (scenario_platform git_histogram_fails [])
                  "fastapi" scenario_commit (Some "P") scenario_file
                  empty_world))
     = [].
Proof.
  destruct (@skip_correctness (scenario_platform git_agrees []))
    as [Hfile [Hcommit _]].
  destruct (@skip_correctness (scenario_platform git_histogram_fails []))
    as [_ [_ Hdiff]].
  split; [|split].
  - apply Hfile; reflexivity.
  - apply Hcommit; reflexivity.
  - apply (Hdiff "fastapi" scenario_commit (Some "P") scenario_file empty_world).
    right. reflexivity.
Defined.

(** ** The scenarios of the specification, run on [main] *)

(** Scenario A: one record, no discrepancy, a [Source] file. *)
Example scenario_A :
  map (fun r => (repository r, file_type r, file_extension r, discrepancy r))
      (rows (snd (@main (scenario_platform git_agrees [scenario_commit])
                        empty_world)))
  = [("fastapi", "Source", ".py", "No")].
Proof. vm_compute. reflexivity. Qed.

(** Scenario B: the histogram run fails, nothing is recorded. *)
Example scenario_B :
  rows (snd (@main (scenario_platform git_histogram_fails [scenario_commit])
                   empty_world))
  = [].
Proof. vm_compute. reflexivity. Qed.

(** Scenario C: a root commit contributes nothing and starts no process. *)
Example scenario_C :
  let w := snd (@main (scenario_platform git_agrees [root_commit]) empty_world) in
  rows w = [] /\ calls w = [].
Proof. vm_compute. split; reflexivity. Qed.

Example scenario_disagreement :
  map discrepancy
      (rows (snd (@main (scenario_platform git_disagrees [scenario_commit])
                        empty_world)))
  = ["Yes"].
Proof. vm_compute. reflexivity. Qed.

(** Scenario E, through the theorem: a message of 150 characters is stored
    as its first 100 characters and the marker. *)
Lemma commit_message_truncation_witness :
  exists r,
    rows (snd (@main (scenario_platform git_agrees [long_commit]) empty_world))
    = [r]
    /\ commit_message r = substring 0 100 long_message ++ "..."
    /\ String.length (commit_message r) = 103%nat.
Proof.
  pose proof (@commit_message_truncation
                (scenario_platform git_agrees [long_commit]) empty_world) as Hall.
  eexists. split; [vm_compute; reflexivity|].
  assert (Hrow : forall r rest,
             rows (snd (@main (scenario_platform git_agrees [long_commit])
                              empty_world)) = r :: rest ->
             commit_message r = substring 0 100 long_message ++ "...").
  { intros r rest E. rewrite E in Hall.
    apply Forall_inv in Hall.
    destruct Hall as [commit [[repo_path [_ [_ Hin]]] [_ [Hlong _]]]].
    simpl in Hin. destruct Hin as [<- | []].
    apply Hlong. vm_compute. lia. }
  split.
  - apply (Hrow _ []). vm_compute. reflexivity.
  - reflexivity.
Defined.

(** ** Rates and the empty dataset *)

Section Rates.

Context `{Platform}.

Lemma py_truediv_run (a b : Z) (w : World) :
  b <> 0 -> py_truediv a b w = (Ok (inject_Z a / inject_Z b)%Q, w).
Proof.
  intros Hb. unfold py_truediv. apply Z.eqb_neq in Hb. now rewrite Hb.
Qed.

(** A guarded rate never raises and touches nothing. *)
Lemma guarded_rate_run (x total : Z) (w : World) :
  guarded_rate x total w = (Ok (rate_value x total), w).
Proof.
  unfold guarded_rate, rate_value.
  destruct (0 <? total) eqn:E; [|reflexivity].
  apply Z.ltb_lt in E. unfold bind. rewrite py_truediv_run by lia. reflexivity.
Qed.

(** C2, on the code: the guarded rate computations of the three scripts
    give 0 on a zero denominator and raise nothing, but the overall rate of
    [display_summary] divides unguarded and raises [ZeroDivisionError] on a
    dataset without records ([main]'s own report fails earlier, with
    [KeyError], on an empty frame). *)
Theorem zero_denominator_rates :
  (forall x w, guarded_rate x 0 w = (Ok 0%Q, w))
  /\ (forall w, fst (display_summary (Table []) w) = Raise ZeroDivisionError)
  /\ (forall w, fst (report_analysis [] w) = Raise KeyError).
Proof.
  split; [|split].
  - intros x w. apply guarded_rate_run.
  - intros w. reflexivity.
  - intros w. reflexivity.
Qed.

(** C6, as the code has it: when [dataset.csv] is absent, [display_summary]
    prints two lines and returns. *)
Theorem display_summary_absent (w : World) :
  display_summary Absent w
  = (Ok tt,
     mkWorld (calls w) (rows w)
             (stdout w ++ [ Print "Error: dataset.csv not found" [];
                            Print "Please run diff_analysis.py first" [] ])
             (dataset_csv w) (figure_png w)).
Proof.
  unfold display_summary, try_except, bind, print, with_line. simpl.
  now rewrite <- app_assoc.
Qed.

End Rates.

(** C6, as the specification words it, fails on an empty dataset: a file with
    nothing to parse ends [display_summary] with [EmptyDataError] before
    anything is printed, and a file with a header and no records ends it
    with [ZeroDivisionError]. *)
Lemma display_summary_empty_raises :
  @display_summary (scenario_platform git_agrees []) NoColumns empty_world
  = (Raise EmptyDataError, empty_world)
  /\ fst (@display_summary (scenario_platform git_agrees []) (Table [])
                           empty_world)
     = Raise ZeroDivisionError.
Proof. split; reflexivity. Qed.

(** ** Grouping lemmas *)

Lemma In_unique (x : string) (l : list string) : In x (unique l) <-> In x l.
Proof.
  induction l as [|a l IH]; simpl; [tauto|].
  rewrite filter_In, IH, negb_true_iff, String.eqb_neq.
  destruct (string_dec a x) as [E | E]; [tauto|].
  split; [tauto|]. intros [E' | Hin]; [tauto|]. right. split; congruence.
Qed.

Lemma In_insert_sorted (x y : string) (l : list string) :
  In x (insert_sorted y l) <-> y = x \/ In x l.
Proof.
  induction l as [|a l IH]; simpl; [tauto|].
  destruct (String.ltb y a); simpl; [tauto|]. rewrite IH. tauto.
Qed.

Lemma In_sorted (x : string) (l : list string) : In x (sorted l) <-> In x l.
Proof.
  induction l as [|a l IH]; simpl; [tauto|].
  rewrite In_insert_sorted, IH. tauto.
Qed.

Lemma In_group_keys (column : ComparisonRecord -> string)
      (df : list ComparisonRecord) (k : string) :
  In k (group_keys column df) <-> In k (map column df).
Proof. unfold group_keys. now rewrite In_sorted, In_unique. Qed.

(** A value has records exactly when it occurs in the column. *)
Lemma len_where_eq_pos (column : ComparisonRecord -> string)
      (df : list ComparisonRecord) (k : string) :
  0 < len (where_eq column k df) <-> In k (map column df).
Proof.
  unfold len, where_eq. rewrite in_map_iff. split.
  - destruct (filter _ df) as [|r l] eqn:E; simpl; [lia|]. intros _.
    assert (Hr : In r (filter (fun r => String.eqb (column r) k) df))
      by (rewrite E; now left).
    apply filter_In in Hr. destruct Hr as [Hin Heq].
    apply String.eqb_eq in Heq. now exists r.
  - intros [r [Heq Hin]].
    assert (Hr : In r (filter (fun r => String.eqb (column r) k) df)).
    { apply filter_In. split; [assumption|]. now apply String.eqb_eq. }
    destruct (filter _ df); [contradiction | simpl; lia].
Qed.

Lemma len_nonneg {A} (l : list A) : 0 <= len l.
Proof. unfold len. lia. Qed.

Lemma series_get_map (f : string -> Z) (keys : list string) (k : string)
      (default : Z) :
  series_get (map (fun k => (k, f k)) keys) k default
  = if in_dec string_dec k keys then f k else default.
Proof.
  induction keys as [|a keys IH]; simpl; [reflexivity|].
  destruct (String.eqb_spec a k) as [-> | Hne].
  - destruct (string_dec k k); [reflexivity | congruence].
  - rewrite IH. destruct (string_dec a k); [congruence|].
    destruct (in_dec string_dec k keys); reflexivity.
Qed.

(** [groupby(column).size().get(k, 0)] is the number of records with [k]. *)
Lemma series_get_groupby_size (column : ComparisonRecord -> string)
      (df : list ComparisonRecord) (k : string) :
  series_get (groupby_size column df) k 0 = len (where_eq column k df).
Proof.
  unfold groupby_size.
  rewrite (series_get_map (fun k => len (where_eq column k df))).
  destruct (in_dec string_dec k (group_keys column df)) as [Hin | Hout];
    [reflexivity|].
  rewrite In_group_keys, <- len_where_eq_pos in Hout.
  pose proof (len_nonneg (where_eq column k df)). lia.
Qed.

Lemma for_acc_run {A S} (body : A -> S -> M S) (g : A -> S -> S)
      (l : list A) :
  (forall x s w, body x s w = (Ok (g x s), w)) ->
  forall s w, for_acc l body s w = (Ok (fold_left (fun s x => g x s) l s), w).
Proof.
  intros Hb. induction l as [|x l IH]; intros s w; simpl; [reflexivity|].
  unfold bind. rewrite Hb. apply IH.
Qed.

Lemma In_insert_by_rate (x y : ft_stat) (l : list ft_stat) :
  In x (insert_by_rate y l) <-> y = x \/ In x l.
Proof.
  induction l as [|a l IH]; simpl; [tauto|].
  destruct (Qlt_bool _ _); simpl; [tauto|]. rewrite IH. tauto.
Qed.

Lemma In_sort_by_rate (x : ft_stat) (l : list ft_stat) :
  In x (sort_by_rate l) <-> In x l.
Proof.
  unfold sort_by_rate.
  assert (G : forall acc, In x (fold_left (fun acc y => insert_by_rate y acc) l acc)
                          <-> In x acc \/ In x l).
  { induction l as [|a l IH]; intros acc; simpl; [tauto|].
    rewrite IH, In_insert_by_rate. tauto. }
  rewrite G. simpl. tauto.
Qed.

(** ** Stepping through a script *)

Lemma bind_print {B} (t : string) (args : list value) (k : unit -> M B)
      (w : World) :
  bind (print t args) k w = k tt (with_line w (Print t args)).
Proof. reflexivity. Qed.

Lemma bind_guarded_rate {B} (x total : Z) (k : Q -> M B) (w : World) :
  bind (guarded_rate x total) k w = k (rate_value x total) w.
Proof. apply bind_ok, guarded_rate_run. Qed.

Lemma bind_py_max {A B} (key : A -> Q) (x : A) (l : list A) (k : A -> M B)
      (w : World) :
  bind (py_max key (x :: l)) k w = k (first_max key x l) w.
Proof. reflexivity. Qed.

Lemma bind_py_min {A B} (key : A -> Q) (x : A) (l : list A) (k : A -> M B)
      (w : World) :
  bind (py_min key (x :: l)) k w = k (first_min key x l) w.
Proof. reflexivity. Qed.

Lemma bind_read_csv {B} (df : list ComparisonRecord)
      (k : list ComparisonRecord -> M B) (w : World) :
  bind (read_csv (Table df)) k w = k df w.
Proof. reflexivity. Qed.

Ltac run_prints := repeat (rewrite bind_print; cbv beta).

(** ** The chart's panel of file types *)

Section Chart.

Context `{Platform}.

Lemma file_type_stats_of_run (df : list ComparisonRecord) (w : World) :
  file_type_stats_of df w = (Ok (file_type_stats_value df), w).
Proof.
  unfold file_type_stats_of.
  rewrite (for_acc_run _
             (fun ft acc =>
                if min_samples <=? len (where_eq file_type ft df)
                then (acc ++ [ft_entry df ft])%list else acc)).
  - f_equal. f_equal. unfold file_type_stats_value.
    generalize (unique (map file_type df)) as fts.
    assert (G : forall fts acc,
               fold_left
                 (fun acc ft =>
                    if min_samples <=? len (where_eq file_type ft df)
                    then (acc ++ [ft_entry df ft])%list else acc) fts acc
               = (acc ++ flat_map
                           (fun ft =>
                              if min_samples <=? len (where_eq file_type ft df)
                              then [ft_entry df ft] else []) fts)%list).
    { induction fts as [|ft fts IH]; intros acc; simpl;
        [now rewrite app_nil_r|].
      rewrite IH. destruct (min_samples <=? _); [|reflexivity].
      now rewrite <- app_assoc. }
    intros fts. apply (G fts []).
  - intros ft acc w'. unfold bind. rewrite guarded_rate_run.
    destruct (min_samples <=? _); reflexivity.
Qed.

Lemma repo_data_of_run (df : list ComparisonRecord) (w : World) :
  repo_data_of df w = (Ok (repo_data_value df), w).
Proof.
  unfold repo_data_of.
  rewrite (for_acc_run _
             (fun repo acc =>
                let repo_df := where_eq repository repo df in
                (acc ++ [mkRepoDatum (str_upper repo)
                           (rate_value (len (where_eq discrepancy "Yes" repo_df))
                                       (len repo_df))
                           (len repo_df)
                           (len (where_eq discrepancy "Yes" repo_df))])%list)).
  - f_equal. f_equal. unfold repo_data_value.
    generalize (sorted (unique (map repository df))) as repos.
    assert (G : forall repos acc,
               fold_left
                 (fun acc repo =>
                    let repo_df := where_eq repository repo df in
                    (acc ++ [mkRepoDatum (str_upper repo)
                               (rate_value
                                  (len (where_eq discrepancy "Yes" repo_df))
                                  (len repo_df))
                               (len repo_df)
                               (len (where_eq discrepancy "Yes" repo_df))])%list)
                 repos acc
               = (acc ++ map
                           (fun repo =>
                              let repo_df := where_eq repository repo df in
                              mkRepoDatum (str_upper repo)
                                (rate_value
                                   (len (where_eq discrepancy "Yes" repo_df))
                                   (len repo_df))
                                (len repo_df)
                                (len (where_eq discrepancy "Yes" repo_df)))
                           repos)%list).
    { induction repos as [|repo repos IH]; intros acc; simpl;
        [now rewrite app_nil_r|].
      rewrite IH. now rewrite <- app_assoc. }
    intros repos. apply (G repos []).
  - intros repo acc w'. unfold bind. rewrite guarded_rate_run. reflexivity.
Qed.

(** A file type has its entry in [file_type_stats] exactly when it has at
    least [min_samples] records. *)
Lemma In_file_type_stats (df : list ComparisonRecord) (ft : string) :
  In (ft_entry df ft) (file_type_stats_value df)
  <-> min_samples <= len (where_eq file_type ft df).
Proof.
  unfold file_type_stats_value. rewrite in_flat_map. split.
  - intros [ft' [_ Hin]].
    destruct (min_samples <=? len (where_eq file_type ft' df)) eqn:E;
      [|contradiction].
    destruct Hin as [Heq | []]. apply Z.leb_le in E.
    apply (f_equal fs_total) in Heq. simpl in Heq. now rewrite <- Heq.
  - intros Hle. exists ft. split.
    + apply In_unique, len_where_eq_pos. unfold min_samples in Hle. lia.
    + apply Z.leb_le in Hle. rewrite Hle. now left.
Qed.

Lemma repo_data_nonempty (df : list ComparisonRecord) :
  df <> [] -> repo_data_value df <> [].
Proof.
  destruct df as [|r df]; [congruence|]. intros _ E.
  assert (Hin : In (repository r) (sorted (unique (map repository (r :: df)))))
    by (apply In_sorted, In_unique; now left).
  unfold repo_data_value in E. apply map_eq_nil in E. now rewrite E in Hin.
Qed.

Lemma sort_by_rate_nonempty (l : list ft_stat) : l <> [] -> sort_by_rate l <> [].
Proof.
  destruct l as [|x l]; [congruence|]. intros _ E.
  assert (Hin : In x (sort_by_rate (x :: l))) by (apply In_sort_by_rate; now left).
  now rewrite E in Hin.
Qed.

Lemma bind_repo_data_of {B} (df : list ComparisonRecord)
      (k : list repo_datum -> M B) (w : World) :
  bind (repo_data_of df) k w = k (repo_data_value df) w.
Proof. apply bind_ok, repo_data_of_run. Qed.

Lemma bind_file_type_stats_of {B} (df : list ComparisonRecord)
      (k : list ft_stat -> M B) (w : World) :
  bind (file_type_stats_of df) k w = k (file_type_stats_value df) w.
Proof. apply bind_ok, file_type_stats_of_run. Qed.

(** With a file type of at least [min_samples] records the figure is drawn,
    and its file-type panel holds the sorted [file_type_stats]. *)
Lemma visualization_draws (df : list ComparisonRecord) (w : World) :
  file_type_stats_value df <> [] ->
  exists fig w',
    create_final_clear_visualization (Table df) w = (Ok df, w')
    /\ figure_png w' = Some fig
    /\ file_type_bars fig = sort_by_rate (file_type_stats_value df).
Proof.
  intros Hstats.
  assert (Hdf : df <> []) by (intros ->; now apply Hstats).
  pose proof (repo_data_nonempty df Hdf) as Hrepo.
  pose proof (sort_by_rate_nonempty _ Hstats) as Hsorted.
  unfold create_final_clear_visualization.
  destruct (repo_data_value df) as [|rd rds] eqn:Erd; [congruence|].
  destruct (file_type_stats_value df) as [|s ss] eqn:Est; [congruence|].
  destruct (sort_by_rate (s :: ss)) as [|b bs] eqn:Esort; [congruence|].
  destruct (0 <? len (where_eq discrepancy "Yes" df)) eqn:Epie;
    (eexists; eexists; split;
     [ run_prints; rewrite bind_read_csv; cbv beta; run_prints; cbv zeta;
       rewrite !bind_guarded_rate; cbv beta; rewrite Epie; cbv iota beta;
       rewrite bind_repo_data_of, Erd; cbv beta;
       simpl map; rewrite bind_py_max; cbv beta;
       rewrite bind_file_type_stats_of, Est; cbv beta;
       unfold sort_values_rate; rewrite Esort;
       rewrite (bind_ok (ret (b :: bs)) _ _ _ _ eq_refl); cbv beta;
       simpl map; rewrite bind_py_max; cbv beta;
       rewrite !bind_guarded_rate; cbv beta;
       rewrite bind_py_min; cbv beta; rewrite bind_py_max; cbv beta;
       rewrite (bind_ok (bind (py_min fs_rate (s :: ss)) _) _ _ _ _ eq_refl);
       cbv beta iota;
       rewrite (bind_ok (savefig _) _ _ _ _ eq_refl); cbv beta;
       run_prints; reflexivity
     | split; reflexivity ]).
Qed.

(** Without such a file type the script stops before [savefig]. *)
Lemma visualization_draws_nothing (df : list ComparisonRecord) (w : World) :
  file_type_stats_value df = [] ->
  figure_png (snd (create_final_clear_visualization (Table df) w))
  = figure_png w.
Proof.
  intros Est.
  unfold create_final_clear_visualization.
  run_prints. rewrite bind_read_csv. cbv beta. run_prints. cbv zeta.
  rewrite !bind_guarded_rate. cbv beta.
  destruct (0 <? len (where_eq discrepancy "Yes" df)); cbv iota beta;
    rewrite bind_repo_data_of; cbv beta;
    (destruct (repo_data_value df) as [|rd rds]; [reflexivity|]);
    simpl map; rewrite bind_py_max; cbv beta;
    rewrite bind_file_type_stats_of, Est; reflexivity.
Qed.

End Chart.

(** ** The console summary *)

Lemma extends_refl (w : World) : extends w w.
Proof. exists []. now rewrite app_nil_r. Qed.

Lemma extends_trans (w1 w2 w3 : World) :
  extends w1 w2 -> extends w2 w3 -> extends w1 w3.
Proof.
  intros [m1 E1] [m2 E2]. exists (m1 ++ m2)%list.
  now rewrite E2, E1, app_assoc.
Qed.

Lemma extends_with_line (w : World) (l : line) : extends w (with_line w l).
Proof. now exists [l]. Qed.

Lemma extends_In (w w' : World) (l : line) :
  extends w w' -> In l (stdout w) -> In l (stdout w').
Proof. intros [more E] Hin. rewrite E. apply in_or_app. now left. Qed.

Lemma prints_only_print (t : string) (args : list value) :
  prints_only (print t args).
Proof.
  intros w. exists (with_line w (Print t args)).
  split; [reflexivity | apply extends_with_line].
Qed.

Lemma prints_only_seq (m k : M unit) :
  prints_only m -> prints_only k -> prints_only (m ;;; k).
Proof.
  intros Hm Hk w. destruct (Hm w) as [w1 [E1 X1]].
  destruct (Hk w1) as [w2 [E2 X2]].
  exists w2. split; [|eapply extends_trans; eassumption].
  now rewrite (bind_ok _ _ _ _ _ E1).
Qed.

Lemma prints_only_for_each {A} (l : list A) (body : A -> M unit) :
  (forall x, prints_only (body x)) -> prints_only (for_each l body).
Proof.
  intros Hb. induction l as [|x l IH]; simpl.
  - intros w. exists w. split; [reflexivity | apply extends_refl].
  - apply prints_only_seq; [apply Hb | apply IH].
Qed.

(** A loop whose body prints one line per element prints all of them. *)
Lemma for_each_lines {A} (f : A -> line) (body : A -> M unit) (l : list A) :
  (forall x w, body x w = (Ok tt, with_line w (f x))) ->
  forall w, exists w',
    for_each l body w = (Ok tt, w')
    /\ stdout w' = (stdout w ++ map f l)%list.
Proof.
  intros Hb. induction l as [|x l IH]; intros w; simpl.
  - exists w. split; [reflexivity | now rewrite app_nil_r].
  - destruct (IH (with_line w (f x))) as [w' [E S]].
    exists w'. split.
    + now rewrite (bind_ok _ _ _ _ _ (Hb x w)).
    + rewrite S. simpl. now rewrite <- app_assoc.
Qed.

Section Console.

Context `{Platform}.

Lemma summarize_overall_prints (df : list ComparisonRecord) :
  df <> [] -> prints_only (summarize_overall df).
Proof.
  intros Hdf. unfold summarize_overall. intros w.
  rewrite (bind_ok _ _ _ _ _ (py_truediv_run _ (len df) w
                               ltac:(destruct df; [congruence | unfold len; simpl; lia]))).
  apply (prints_only_seq _ _ (prints_only_print _ _)).
  apply (prints_only_seq _ _ (prints_only_print _ _)).
  apply (prints_only_seq _ _ (prints_only_print _ _)).
  apply prints_only_print.
Qed.

Lemma summarize_repositories_prints (repo_stats : list repo_stat) :
  prints_only (summarize_repositories repo_stats).
Proof.
  unfold summarize_repositories.
  apply prints_only_seq; [apply prints_only_print|].
  apply prints_only_for_each. intros s. apply prints_only_print.
Qed.

Lemma summarize_insights_prints (ftd : list (string * Z))
      (repo_stats : list repo_stat) :
  repo_stats <> [] -> prints_only (summarize_insights ftd repo_stats).
Proof.
  intros Hrs. unfold summarize_insights.
  apply prints_only_seq; [apply prints_only_print|].
  apply prints_only_seq; [apply prints_only_print|].
  destruct repo_stats as [|s rs]; [congruence|].
  intros w. rewrite bind_py_max. revert w.
  apply prints_only_seq; [apply prints_only_print|].
  apply prints_only_seq; [|apply prints_only_print].
  destruct (_ =? 0); apply prints_only_print.
Qed.

Lemma print_file_type_run (df : list ComparisonRecord) (e : string * Z)
      (w : World) :
  print_file_type (groupby_size file_type (where_eq discrepancy "Yes" df)) e w
  = (Ok tt,
     with_line w
       (let discrepancies :=
          len (where_eq file_type (fst e) (where_eq discrepancy "Yes" df)) in
        Print "   {}: {}/{} ({:.1f}%)"
              [VStr (str_title (fst e)); VInt discrepancies; VInt (snd e);
               VNum (rate_value discrepancies (snd e))])).
Proof.
  destruct e as [ft total]. unfold print_file_type.
  rewrite bind_guarded_rate, series_get_groupby_size. reflexivity.
Qed.

Lemma summarize_file_types_lines (df : list ComparisonRecord) (w : World) :
  exists w',
    summarize_file_types
      (groupby_size file_type (where_eq discrepancy "Yes" df))
      (groupby_size file_type df) w = (Ok tt, w')
    /\ extends w w'
    /\ forall ft, In ft (map file_type df) ->
                  In (file_type_line df ft) (stdout w').
Proof.
  unfold summarize_file_types. rewrite bind_print.
  destruct (for_each_lines _ _ (groupby_size file_type df)
              (print_file_type_run df)
              (with_line w (Print (nl ++ "FILE TYPE ANALYSIS:") [])))
    as [w' [E S]].
  exists w'. split; [exact E | split].
  - eapply extends_trans; [apply extends_with_line|]. eexists. exact S.
  - intros ft Hft. rewrite S. apply in_or_app. right.
    apply in_map_iff. exists (ft, len (where_eq file_type ft df)).
    split; [reflexivity|].
    unfold groupby_size. apply in_map_iff. exists ft.
    split; [reflexivity | now apply In_group_keys].
Qed.

Lemma repo_stats_nonempty (df : list ComparisonRecord) :
  df <> [] -> repo_stats_of df <> [].
Proof.
  destruct df as [|r df]; [congruence|]. intros _ E.
  assert (Hin : In (repository r) (group_keys repository (r :: df)))
    by (apply In_group_keys; now left).
  unfold repo_stats_of in E. apply map_eq_nil in E. now rewrite E in Hin.
Qed.

(** On a dataset with records [display_summary] returns normally, and the
    console holds the line of every file type of the dataset. *)
Lemma display_summary_lines (df : list ComparisonRecord) (w : World) :
  df <> [] ->
  exists w',
    display_summary (Table df) w = (Ok tt, w')
    /\ forall ft, In ft (map file_type df) ->
                  In (file_type_line df ft) (stdout w').
Proof.
  intros Hdf. unfold display_summary.
  rewrite (bind_ok _ _ w w (Some df) eq_refl).
  unfold summarize. run_prints.
  destruct (summarize_overall_prints df Hdf
              (with_line
                 (with_line
                    (with_line w (Print (repeat_str "=" 60) []))
                    (Print "DIFF ALGORITHM ANALYSIS SUMMARY" []))
                 (Print (repeat_str "=" 60) []))) as [w1 [E1 _]].
  rewrite (bind_ok _ _ _ _ _ E1). cbv zeta.
  destruct (summarize_repositories_prints (repo_stats_of df) w1) as [w2 [E2 _]].
  rewrite (bind_ok _ _ _ _ _ E2).
  destruct (summarize_file_types_lines df w2) as [w3 [E3 [_ Hlines]]].
  rewrite (bind_ok _ _ _ _ _ E3).
  destruct (summarize_insights_prints
              (groupby_size file_type (where_eq discrepancy "Yes" df))
              (repo_stats_of df) (repo_stats_nonempty df Hdf) w3)
    as [w4 [E4 X4]].
  rewrite (bind_ok _ _ _ _ _ E4). run_prints.
  eexists. split; [reflexivity|].
  intros ft Hft.
  eapply extends_In; [|apply (Hlines ft Hft)].
  eapply extends_trans; [exact X4|].
  eapply extends_trans; apply extends_with_line.
Qed.

(** C9: a file type has its entry in the file-type panel of the saved
    figure exactly when it has at least 10 records, and the console summary
    has a line with the count and the rate of every file type of the
    dataset. *)
Theorem file_type_panel_and_console (df : list ComparisonRecord)
        (ft : string) (w : World) :
  (min_samples <= len (where_eq file_type ft df) ->
   exists fig,
     figure_png (snd (create_final_clear_visualization (Table df) w)) = Some fig
     /\ In (ft_entry df ft) (file_type_bars fig))
  /\ (forall fig,
         figure_png w = None ->
         figure_png (snd (create_final_clear_visualization (Table df) w))
         = Some fig ->
         In (ft_entry df ft) (file_type_bars fig) ->
         min_samples <= len (where_eq file_type ft df))
  /\ (In ft (map file_type df) ->
      In (file_type_line df ft) (stdout (snd (display_summary (Table df) w)))).
Proof.
  split; [|split].
  - intros Hle. apply In_file_type_stats in Hle.
    assert (Hstats : file_type_stats_value df <> [])
      by (intros E; now rewrite E in Hle).
    destruct (visualization_draws df w Hstats) as [fig [w' [E [Hfig Hbars]]]].
    exists fig. rewrite E. split; [exact Hfig|].
    rewrite Hbars. now apply In_sort_by_rate.
  - intros fig Hnone Hfig Hin.
    destruct (file_type_stats_value df) as [|s ss] eqn:Est.
    + rewrite (visualization_draws_nothing df w Est), Hnone in Hfig.
      discriminate Hfig.
    + assert (Hstats : file_type_stats_value df <> [])
        by (rewrite Est; discriminate).
      destruct (visualization_draws df w Hstats) as [fig' [w' [E [Hfig' Hbars]]]].
      rewrite E in Hfig. simpl in Hfig. rewrite Hfig' in Hfig.
      injection Hfig as ->. rewrite Hbars in Hin.
      now apply In_file_type_stats, In_sort_by_rate.
  - intros Hft.
    assert (Hdf : df <> []) by (intros ->; contradiction).
    destruct (display_summary_lines df w Hdf) as [w' [E Hlines]].
    rewrite E. now apply Hlines.
Qed.

End Console.

Lemma file_type_panel_and_console_witness :
  (exists fig,
      figure_png
        (snd (@create_final_clear_visualization
                (scenario_platform git_agrees []) (Table scenario_dataset)
                empty_world)) = Some fig
      /\ In (@ft_entry (scenario_platform git_agrees []) scenario_dataset "Source")
            (file_type_bars fig)
      /\ ~ In (@ft_entry (scenario_platform git_agrees []) scenario_dataset "Other")
              (file_type_bars fig))
  /\ In (@file_type_line (scenario_platform git_agrees []) scenario_dataset "Other")
        (stdout (snd (@display_summary (scenario_platform git_agrees [])
                        (Table scenario_dataset) empty_world))).
Proof.
  pose proof (@file_type_panel_and_console (scenario_platform git_agrees [])
                scenario_dataset "Source" empty_world) as [Hbar _].
  pose proof (@file_type_panel_and_console (scenario_platform git_agrees [])
                scenario_dataset "Other" empty_world) as [_ [Hno Hline]].
  split.
  - destruct Hbar as [fig [Hfig Hin]]; [now vm_compute|].
    exists fig. split; [exact Hfig | split; [exact Hin|]].
    intros Hother. apply (Hno fig eq_refl Hfig) in Hother.
    apply Hother. reflexivity.
  - apply Hline. unfold scenario_dataset. rewrite map_app.
    apply in_or_app. right. left. reflexivity.
Defined.

(** The scenario on the two scripts: the panel has the one bar, the console
    has both file types. *)
Example scenario_panel :
  match figure_png
          (snd (@create_final_clear_visualization
                  (scenario_platform git_agrees []) (Table scenario_dataset)
                  empty_world)) with
  | Some fig => map fs_file_type (file_type_bars fig) = ["Source"]
  | None => False
  end.
Proof. vm_compute. reflexivity. Qed.

Example scenario_few_records :
  @create_final_clear_visualization
    (scenario_platform git_agrees [])
    (Table [sample_record "fastapi" "Source" "No"]) empty_world
  = (Raise KeyError,
     with_line (with_line empty_world (Print "Loading dataset..." []))
               (Print "Loaded {:,} records" [VInt 1])).
Proof. vm_compute. reflexivity. Qed.

(** * Further properties of the three scripts *)

(** ** Every record of the dataset *)

Section Records.

Context `{Platform}.

(** A property of the rows [process_file] appends, for a present parent,
    holds for every row of [main]. *)
Lemma main_rows_all (Q : ComparisonRecord -> Prop) :
  (forall repo_name commit parent file,
      truthy parent = true ->
      appends Q (process_file repo_name commit parent file)) ->
  forall w, Forall Q (rows (snd (main w))).
Proof.
  intros Hfile w. rewrite main_rows. apply collect_rows.
  intros [repo_name repo_path] _. unfold process_repository.
  apply appends_bind; [apply appends_print | intros _].
  destruct (negb (path_exists repo_path)); [apply appends_print|].
  apply appends_for_each. intros commit _. unfold process_commit.
  destruct (truthy _) eqn:Hp; simpl; [|apply appends_ret].
  apply appends_for_each. intros file _. now apply Hfile.
Qed.

Lemma classify_truthy_not_Unknown (path : option string) :
  truthy path = true -> classify_file_type path <> "Unknown".
Proof.
  destruct path as [[|c s]|]; try discriminate. intros _.
  unfold classify_file_type.
  repeat match goal with
         | |- context [if ?b then _ else _] => destruct b
         end; discriminate.
Qed.

(** X1: every record of [main] has a parent commit and a path (the new path,
    or else the old one); its file type is the class of that path and is
    never "Unknown"; its extension is the lowered extension of that path. *)
Theorem records_have_path_and_parent (w : World) :
  Forall (fun r =>
            let path := py_or (new_file_path r) (old_file_path r) in
            truthy (parent_commit_sha r) = true
            /\ truthy path = true
            /\ file_type r = classify_file_type path
            /\ file_type r <> "Unknown"
            /\ exists p, path = Some p /\ file_extension r = file_extension_of p)
         (rows (snd (main w))).
Proof.
  apply main_rows_all. intros repo_name commit parent file Hparent.
  unfold process_file.
  destruct (truthy (py_or (new_path file) (old_path file))) eqn:Hpath;
    simpl; [|apply appends_ret].
  apply appends_bind; [apply appends_get_diff | intros [myers|]];
    (apply appends_bind; [apply appends_get_diff | intros [histogram|]]);
    try apply appends_ret.
  apply appends_rows_append. simpl.
  repeat split; try assumption.
  - now apply classify_truthy_not_Unknown.
  - destruct (py_or (new_path file) (old_path file)) as [p|];
      [|discriminate].
    destruct p as [|c s]; [discriminate Hpath|].
    exists (String c s). split; reflexivity.
Qed.

Lemma length_take (n : nat) (s : string) :
  String.length (take n s) = Nat.min n (String.length s).
Proof.
  revert s. induction n as [|n IH]; intros [|c s]; simpl; try reflexivity.
  now rewrite IH.
Qed.

Lemma length_append (s t : string) :
  String.length (s ++ t) = (String.length s + String.length t)%nat.
Proof. induction s as [|c s IH]; simpl; [reflexivity | now rewrite IH]. Qed.

Lemma truncated_message_length (m : string) :
  (String.length (truncated_message m) <= 103)%nat
  /\ ((100 < String.length m)%nat ->
      String.length (truncated_message m) = 103%nat).
Proof.
  unfold truncated_message.
  destruct (100 <? Z.of_nat (String.length m)) eqn:E.
  - apply Z.ltb_lt in E. rewrite length_append, length_take.
    change (String.length "...") with 3%nat. lia.
  - apply Z.ltb_ge in E. lia.
Qed.

(** X2: a stored commit message is never longer than 103 characters: the
    100 characters kept and the three of the marker. *)
Theorem commit_message_bounded (w : World) :
  Forall (fun r => (String.length (commit_message r) <= 103)%nat)
         (rows (snd (main w))).
Proof.
  eapply Forall_impl; [|apply main_emitted].
  intros r [commit [_ [_ [_ [Hmsg _]]]]]. rewrite Hmsg.
  apply truncated_message_length.
Qed.

End Records.

(** ** The processes the traversal starts *)

(** [starts Q m]: running [m] only adds calls at the end of the log, and
    every added call satisfies [Q]. *)
Definition starts {A} (Q : Invocation -> Prop) (m : M A) : Prop :=
  forall w, exists new,
    calls (snd (m w)) = (calls w ++ new)%list /\ Forall Q new.

(** A call [git diff -w --ignore-blank-lines --diff-algorithm=...] with one
    of the two algorithms, from the non-empty revision [parent] to [child],
    on one non-empty path, run in [cwd]. *)
Definition diff_call (cwd parent child : string) (inv : Invocation) : Prop :=
  exists algorithm path,
    (algorithm = "myers" \/ algorithm = "histogram")
    /\ parent <> "" /\ path <> ""
    /\ inv = mkInvocation (diff_cmd algorithm parent child path) cwd.

Section Starts.

Context {A B : Type} (Q : Invocation -> Prop).

Lemma starts_nothing (m : M A) :
  (forall w, calls (snd (m w)) = calls w) -> starts Q m.
Proof.
  intros E w. exists []. rewrite app_nil_r. split; [apply E | constructor].
Qed.

Lemma starts_ret (a : A) : starts Q (ret a).
Proof. now apply starts_nothing. Qed.

Lemma starts_bind (m : M A) (k : A -> M B) :
  starts Q m -> (forall a, starts Q (k a)) -> starts Q (bind m k).
Proof.
  intros Hm Hk w. unfold bind.
  destruct (Hm w) as [n1 [E1 F1]].
  destruct (m w) as [[a | e] w1]; simpl in E1.
  - destruct (Hk a w1) as [n2 [E2 F2]].
    exists (n1 ++ n2)%list. rewrite E2, E1, app_assoc.
    split; [reflexivity | now apply Forall_app].
  - exists n1. now split.
Qed.

Lemma starts_weaken (Q' : Invocation -> Prop) (m : M A) :
  (forall inv, Q' inv -> Q inv) -> starts Q' m -> starts Q m.
Proof.
  intros HQ Hm w. destruct (Hm w) as [new [E F]].
  exists new. split; [assumption|].
  eapply Forall_impl; eassumption.
Qed.

End Starts.

Lemma starts_for_each {A} (Q : Invocation -> Prop) (l : list A)
      (body : A -> M unit) :
  (forall x, In x l -> starts Q (body x)) -> starts Q (for_each l body).
Proof.
  induction l as [|x l IH]; intros Hb; simpl.
  - apply starts_ret.
  - apply starts_bind.
    + apply Hb. now left.
    + intros _. apply IH. intros y Hy. apply Hb. now right.
Qed.

Lemma starts_print (Q : Invocation -> Prop) (t : string) (args : list value) :
  starts Q (print t args).
Proof. now apply starts_nothing. Qed.

Lemma starts_none_calls {A} (m : M A) :
  starts (fun _ => False) m -> forall w, calls (snd (m w)) = calls w.
Proof.
  intros Hm w. destruct (Hm w) as [new [E F]].
  destruct new as [|r new]; [now rewrite app_nil_r in E|].
  inversion F; contradiction.
Qed.

Section Processes.

Context `{Platform}.

Lemma starts_get_diff (repo_dir : string) (parent : option string)
      (child : string) (path : option string) (algorithm : string) :
  algorithm = "myers" \/ algorithm = "histogram" ->
  starts (fun inv => exists pa, parent = Some pa
                                /\ diff_call repo_dir pa child inv)
         (get_diff repo_dir parent child path algorithm).
Proof.
  intros Halg.
  destruct (truthy parent) eqn:Hpa; [destruct (truthy path) eqn:Hpt|].
  - destruct parent as [pa|], path as [pt|]; try discriminate.
    intros w. rewrite (get_diff_started repo_dir pa child pt algorithm w Hpa Hpt).
    eexists. split; [reflexivity|]. constructor; [|constructor].
    exists pa. split; [reflexivity|]. exists algorithm, pt.
    repeat split; try assumption.
    + intros ->. discriminate Hpa.
    + intros ->. discriminate Hpt.
  - apply starts_nothing. intros w. unfold get_diff. rewrite Hpt.
    now rewrite orb_true_r.
  - apply starts_nothing. intros w. unfold get_diff. now rewrite Hpa.
Qed.

Lemma starts_process_file (repo_name : string) (commit : Commit)
      (parent : option string) (file : ModifiedFile) :
  starts (fun inv => exists pa, parent = Some pa
                                /\ diff_call (project_path commit) pa
                                             (hash commit) inv)
         (process_file repo_name commit parent file).
Proof.
  unfold process_file.
  destruct (negb (truthy (py_or (new_path file) (old_path file))));
    [apply starts_ret|].
  apply starts_bind; [apply starts_get_diff; now left | intros dm].
  apply starts_bind; [apply starts_get_diff; now right | intros dh].
  destruct dm, dh; now apply starts_nothing.
Qed.

Lemma starts_report_analysis (Q : Invocation -> Prop)
      (df : list ComparisonRecord) : starts Q (report_analysis df).
Proof.
  unfold report_analysis.
  do 4 (apply starts_bind; [apply starts_print | intros _]).
  apply starts_bind; [destruct df; now apply starts_nothing | intros _].
  apply starts_bind; [apply starts_print | intros _].
  apply starts_bind;
    [unfold py_truediv; destruct (_ =? 0); now apply starts_nothing | intros q].
  do 2 (apply starts_bind; [apply starts_print | intros _]).
  apply starts_bind; [|intros _; apply starts_print].
  apply starts_for_each. intros [repo_name repo_path] _.
  destruct (0 <? _); [|apply starts_ret].
  apply starts_bind; [|intro; apply starts_print].
  unfold py_truediv; destruct (_ =? 0); now apply starts_nothing.
Qed.

(** X3: the only processes [main] starts are [git diff] calls, with the
    myers or the histogram algorithm, from the first parent of a traversed
    commit to that commit, on one path, in the commit's working tree. *)
Theorem main_starts_only_diffs (w : World) :
  exists new,
    calls (snd (main w)) = (calls w ++ new)%list
    /\ Forall (fun inv =>
                 exists repo_name commit parent,
                   traversed repo_name commit
                   /\ hd_error (parents commit) = Some parent
                   /\ diff_call (project_path commit) parent (hash commit) inv)
              new.
Proof.
  revert w. change (starts
    (fun inv => exists repo_name commit parent,
         traversed repo_name commit
         /\ hd_error (parents commit) = Some parent
         /\ diff_call (project_path commit) parent (hash commit) inv) main).
  unfold main.
  apply starts_bind; [|intros _].
  - unfold collect. apply starts_bind; [now apply starts_nothing | intros _].
    apply starts_for_each. intros [repo_name repo_path] Hrepo.
    unfold process_repository.
    apply starts_bind; [apply starts_print | intros _].
    destruct (path_exists repo_path) eqn:Hex; simpl; [|apply starts_print].
    apply starts_for_each. intros commit Hcommit. unfold process_commit.
    destruct (negb (truthy _)); [apply starts_ret|].
    apply starts_for_each. intros file _.
    eapply starts_weaken; [|apply starts_process_file].
    intros inv [pa [Hpa Hcall]].
    exists repo_name, commit, pa. split; [|split; [|exact Hcall]].
    + exists repo_path. auto.
    + destruct (parents commit); [discriminate | now inversion Hpa].
  - apply starts_bind; [now apply starts_nothing | intros df].
    apply starts_bind; [now apply starts_nothing | intros _].
    apply starts_bind; [apply starts_report_analysis | intros _].
    apply starts_ret.
Qed.

End Processes.

Section BothAlgorithms.

Context `{Platform}.

Lemma truthy_Some (s : string) : s <> "" -> truthy (Some s) = true.
Proof. destruct s; [congruence | reflexivity]. Qed.

(** X4: for a file with a path, the myers diff is started first; if it runs
    (whatever its exit status) the histogram diff is started next and nothing
    else; if it cannot be started, [process_file] raises [OSError] with the
    histogram diff never tried. *)
Theorem process_file_runs_both (repo_name : string) (commit : Commit)
        (parent : string) (file : ModifiedFile) (path : string) (w : World) :
  parent <> "" -> path <> "" ->
  py_or (new_path file) (old_path file) = Some path ->
  let inv alg :=
    mkInvocation (diff_cmd alg parent (hash commit) path)
                 (project_path commit) in
  let run := process_file repo_name commit (Some parent) file w in
  (forall rc out,
      run_process (calls w) (inv "myers") = Exited rc out ->
      calls (snd run) = (calls w ++ [inv "myers"; inv "histogram"])%list)
  /\ (run_process (calls w) (inv "myers") = NotStarted ->
      fst run = Raise OSError
      /\ calls (snd run) = (calls w ++ [inv "myers"])%list
      /\ rows (snd run) = rows w).
Proof.
  intros Hparent Hpath Heff inv run. subst run inv. unfold process_file.
  rewrite Heff, (truthy_Some path Hpath). change (negb true) with false.
  cbv iota beta.
  pose proof (fun alg w' =>
                get_diff_started (project_path commit) parent (hash commit)
                  path alg w' (truthy_Some _ Hparent) (truthy_Some _ Hpath))
    as Hrun.
  cbv zeta in Hrun. unfold bind. rewrite (Hrun "myers" w). split.
  - intros rc out E. rewrite E.
    destruct (rc =? 0); rewrite Hrun; cbn [calls];
      (destruct (run_process (calls w ++ _) _) as [rc' out'|];
       [destruct (rc' =? 0)|]);
      simpl; now rewrite <- app_assoc.
  - intros E. rewrite E. repeat split; reflexivity.
Qed.

End BothAlgorithms.

Lemma process_file_runs_both_witness :
  let inv alg :=
    mkInvocation (diff_cmd alg "P" "C" "src/main.py") "/repo" in
  calls (snd (@process_file (scenario_platform git_histogram_fails [])
                "fastapi" scenario_commit (Some "P") scenario_file
                empty_world))
  = [inv "myers"; inv "histogram"]
  /\ (let run := @process_file (scenario_platform git_missing []) "fastapi"
                    scenario_commit (Some "P") scenario_file empty_world in
      fst run = Raise OSError
      /\ calls (snd run) = [inv "myers"]
      /\ rows (snd run) = []).
Proof.
  intros inv. split.
  - destruct (@process_file_runs_both
                (scenario_platform git_histogram_fails []) "fastapi"
                scenario_commit "P" scenario_file "src/main.py" empty_world)
      as [Hboth _]; try discriminate; [reflexivity|].
    apply (Hboth 0 (list_byte_of_string "+added line")). reflexivity.
  - destruct (@process_file_runs_both
                (scenario_platform git_missing []) "fastapi"
                scenario_commit "P" scenario_file "src/main.py" empty_world)
      as [_ Hnone]; try discriminate; [reflexivity|].
    exact (Hnone eq_refl).
Defined.

(** ** How [main] ends *)

(** The world with more lines on the console and nothing else changed. *)
Definition with_lines (w : World) (ls : list line) : World :=
  mkWorld (calls w) (rows w) (stdout w ++ ls) (dataset_csv w) (figure_png w).

(** [console_only m]: [m] returns normally and only prints. *)
Definition console_only (m : M unit) : Prop :=
  forall w, exists ls, m w = (Ok tt, with_lines w ls).

(** [raises_only E m]: an exception that leaves [m] satisfies [E]. *)
Definition raises_only {A} (E : exn -> Prop) (m : M A) : Prop :=
  forall w e, fst (m w) = Raise e -> E e.

(** [keeps_files m]: [m] writes neither the dataset nor the figure. *)
Definition keeps_files {A} (m : M A) : Prop :=
  forall w, dataset_csv (snd (m w)) = dataset_csv w
            /\ figure_png (snd (m w)) = figure_png w.

Lemma with_lines_nil (w : World) : with_lines w [] = w.
Proof. destruct w. unfold with_lines. simpl. now rewrite app_nil_r. Qed.

Lemma with_lines_app (w : World) (a b : list line) :
  with_lines (with_lines w a) b = with_lines w (a ++ b).
Proof. unfold with_lines. simpl. now rewrite app_assoc. Qed.

Lemma console_only_ret : console_only (ret tt).
Proof. intros w. exists []. now rewrite with_lines_nil. Qed.

Lemma console_only_print (t : string) (args : list value) :
  console_only (print t args).
Proof. intros w. now exists [Print t args]. Qed.

Lemma console_only_seq (m k : M unit) :
  console_only m -> console_only k -> console_only (m ;;; k).
Proof.
  intros Hm Hk w. destruct (Hm w) as [a Ea].
  destruct (Hk (with_lines w a)) as [b Eb].
  exists (a ++ b)%list. rewrite (bind_ok _ _ _ _ _ Ea), Eb.
  now rewrite with_lines_app.
Qed.

Lemma console_only_for_each {A} (l : list A) (body : A -> M unit) :
  (forall x, console_only (body x)) -> console_only (for_each l body).
Proof.
  intros Hb. induction l as [|x l IH]; simpl.
  - apply console_only_ret.
  - apply console_only_seq; [apply Hb | apply IH].
Qed.

Lemma console_only_div_print (a b : Z) (k : Q -> M unit) :
  b <> 0 -> (forall q, console_only (k q)) ->
  console_only (q <- py_truediv a b ;; k q).
Proof.
  intros Hb Hk w. rewrite (bind_ok _ _ _ _ _ (py_truediv_run a b w Hb)).
  apply Hk.
Qed.

Section Frames.

Context {A B : Type}.

Lemma raises_only_bind (E : exn -> Prop) (m : M A) (k : A -> M B) :
  raises_only E m -> (forall a, raises_only E (k a)) ->
  raises_only E (bind m k).
Proof.
  intros Hm Hk w e. unfold bind. specialize (Hm w).
  destruct (m w) as [[a | e'] w1]; simpl in *.
  - apply Hk.
  - intros [= <-]. now apply Hm.
Qed.

Lemma raises_only_never (E : exn -> Prop) (m : M A) :
  (forall w, exists a, fst (m w) = Ok a) -> raises_only E m.
Proof. intros Hm w e He. destruct (Hm w) as [a Ha]. congruence. Qed.

Lemma keeps_files_bind (m : M A) (k : A -> M B) :
  keeps_files m -> (forall a, keeps_files (k a)) -> keeps_files (bind m k).
Proof.
  intros Hm Hk w. unfold bind. destruct (Hm w) as [D F].
  destruct (m w) as [[a | e] w1]; simpl in *.
  - destruct (Hk a w1) as [D' F']. split; congruence.
  - now split.
Qed.

End Frames.

Lemma raises_only_for_each {A} (E : exn -> Prop) (l : list A)
      (body : A -> M unit) :
  (forall x, raises_only E (body x)) -> raises_only E (for_each l body).
Proof.
  intros Hb. induction l as [|x l IH]; simpl.
  - intros w e. discriminate.
  - apply raises_only_bind; [apply Hb | intros _; apply IH].
Qed.

Lemma keeps_files_for_each {A} (l : list A) (body : A -> M unit) :
  (forall x, keeps_files (body x)) -> keeps_files (for_each l body).
Proof.
  intros Hb. induction l as [|x l IH]; simpl.
  - intros w. now split.
  - apply keeps_files_bind; [apply Hb | intros _; apply IH].
Qed.

Section MainEnds.

Context `{Platform}.

Lemma get_diff_frames (repo_dir : string) (parent : option string)
      (child : string) (path : option string) (algorithm : string) :
  raises_only (fun e => e = OSError)
              (get_diff repo_dir parent child path algorithm)
  /\ keeps_files (get_diff repo_dir parent child path algorithm).
Proof.
  destruct (truthy parent) eqn:Hpa; [destruct (truthy path) eqn:Hpt|].
  - destruct parent as [pa|], path as [pt|]; try discriminate.
    split; intros w; rewrite (get_diff_started _ _ _ _ _ w Hpa Hpt).
    + intros e. simpl.
      destruct (run_process _ _) as [rc out|]; [destruct (rc =? 0)|];
        congruence.
    + now split.
  - assert (E : forall w, get_diff repo_dir parent child path algorithm w
                          = (Ok None, w))
      by (intros w; unfold get_diff; rewrite Hpt; now rewrite orb_true_r).
    split; intros w; rewrite E; [discriminate | now split].
  - assert (E : forall w, get_diff repo_dir parent child path algorithm w
                          = (Ok None, w))
      by (intros w; unfold get_diff; now rewrite Hpa).
    split; intros w; rewrite E; [discriminate | now split].
Qed.

Lemma collect_frames (repos : list (string * string)) :
  raises_only (fun e => e = OSError) (collect repos)
  /\ keeps_files (collect repos).
Proof.
  assert (Hfile : forall repo_name commit parent file,
             raises_only (fun e => e = OSError)
                         (process_file repo_name commit parent file)
             /\ keeps_files (process_file repo_name commit parent file)).
  { intros repo_name commit parent file. unfold process_file.
    destruct (negb (truthy _)).
    - split; intros w; [discriminate | now split].
    - split.
      + apply raises_only_bind; [apply get_diff_frames | intros dm].
        apply raises_only_bind; [apply get_diff_frames | intros dh].
        destruct dm, dh; intros w e; discriminate.
      + apply keeps_files_bind; [apply get_diff_frames | intros dm].
        apply keeps_files_bind; [apply get_diff_frames | intros dh].
        destruct dm, dh; intros w; now split. }
  assert (Hcommit : forall repo_name commit,
             raises_only (fun e => e = OSError)
                         (process_commit repo_name commit)
             /\ keeps_files (process_commit repo_name commit)).
  { intros repo_name commit. unfold process_commit.
    destruct (negb (truthy _)).
    - split; intros w; [discriminate | now split].
    - split; [apply raises_only_for_each | apply keeps_files_for_each];
        intros file; apply Hfile. }
  assert (Hrepo : forall repo,
             raises_only (fun e => e = OSError) (process_repository repo)
             /\ keeps_files (process_repository repo)).
  { intros [repo_name repo_path]. unfold process_repository. split.
    - apply raises_only_bind; [intros w e; discriminate | intros _].
      destruct (negb (path_exists repo_path)); [intros w e; discriminate|].
      apply raises_only_for_each. intros commit. apply Hcommit.
    - apply keeps_files_bind; [intros w; now split | intros _].
      destruct (negb (path_exists repo_path)); [intros w; now split|].
      apply keeps_files_for_each. intros commit. apply Hcommit. }
  unfold collect. split.
  - apply raises_only_bind; [intros w e; discriminate | intros _].
    apply raises_only_for_each. intros repo. apply Hrepo.
  - apply keeps_files_bind; [intros w; now split | intros _].
    apply keeps_files_for_each. intros repo. apply Hrepo.
Qed.

Lemma len_cons_nonzero {A} (x : A) (l : list A) : len (x :: l) <> 0.
Proof. unfold len. simpl. lia. Qed.

(** On a frame with records the report of [main] only prints. *)
Lemma report_analysis_console (df : list ComparisonRecord) :
  df <> [] -> console_only (report_analysis df).
Proof.
  destruct df as [|r df]; [congruence|]. intros _. unfold report_analysis.
  do 4 (apply console_only_seq; [apply console_only_print|]).
  apply console_only_seq; [apply console_only_ret|].
  apply console_only_seq; [apply console_only_print|].
  apply console_only_div_print; [apply len_cons_nonzero | intros q].
  do 2 (apply console_only_seq; [apply console_only_print|]).
  apply console_only_seq; [|apply console_only_print].
  apply console_only_for_each. intros [repo_name repo_path].
  destruct (0 <? len (where_eq repository repo_name (r :: df))) eqn:E;
    [|apply console_only_ret].
  apply Z.ltb_lt in E.
  apply console_only_div_print; [lia | intros q'; apply console_only_print].
Qed.

(** X5: [main] ends in one of three ways.  It returns the collected rows,
    which are then not empty and are the frame written to [dataset.csv];
    or no row was collected, an empty frame is written and [main] raises
    [KeyError]; or [git] could not be started, [main] raises [OSError] and
    nothing is written.  In particular it never divides by zero. *)
Theorem main_outcomes (w : World) :
  match main w with
  | (Ok df, w') =>
      df <> [] /\ rows w' = df /\ dataset_csv w' = Some df
  | (Raise e, w') =>
      (e = KeyError /\ rows w' = [] /\ dataset_csv w' = Some [])
      \/ (e = OSError /\ dataset_csv w' = dataset_csv w)
  end.
Proof.
  unfold main. unfold bind at 1.
  destruct (collect_frames repositories) as [Hraise Hkeep].
  specialize (Hraise w). specialize (Hkeep w).
  destruct (collect repositories w) as [[[] | e] w1]; simpl in *.
  - unfold bind at 1. unfold get_rows at 1. cbv beta iota.
    unfold bind at 1. unfold to_csv at 1. cbv beta iota.
    destruct (rows w1) as [|r df] eqn:Erows.
    + unfold report_analysis. run_prints.
      left. cbn. repeat split.
    + destruct (report_analysis_console (r :: df) ltac:(discriminate)
                  (mkWorld (calls w1) (r :: df) (stdout w1)
                           (Some (r :: df)) (figure_png w1))) as [ls E].
      rewrite (bind_ok _ _ _ _ _ E). cbn.
      repeat split. discriminate.
  - right. split; [now apply Hraise | apply Hkeep].
Qed.

End MainEnds.

Section NoRepository.

Context `{Platform}.

(** X6: when none of the configured repository paths exists, [main] starts
    no process, prints a notice for each repository, writes an empty frame
    and raises [KeyError]. *)
Theorem main_without_repositories (w : World) :
  (forall repo_name repo_path,
      In (repo_name, repo_path) repositories ->
      path_exists repo_path = false) ->
  let w' := snd (main w) in
  fst (main w) = Raise KeyError
  /\ calls w' = calls w
  /\ rows w' = []
  /\ dataset_csv w' = Some []
  /\ forall repo_name repo_path,
       In (repo_name, repo_path) repositories ->
       In (Print "Repository path {} does not exist, skipping..."
                 [VStr repo_path]) (stdout w').
Proof.
  intros Hmissing.
  assert (E1 : path_exists "/home/set-iitgn-vm/STT_A4/fastapi" = false)
    by (apply (Hmissing "fastapi"); simpl; auto).
  assert (E2 : path_exists "/home/set-iitgn-vm/STT_A4/nginx" = false)
    by (apply (Hmissing "nginx"); simpl; auto).
  assert (E3 : path_exists "/home/set-iitgn-vm/STT_A4/OpenHands" = false)
    by (apply (Hmissing "openhands"); simpl; auto).
  unfold main, collect, repositories, process_repository.
  cbn [for_each]. unfold bind, set_rows, print, get_rows, to_csv.
  rewrite E1, E2, E3. cbn.
  repeat split.
  intros repo_name repo_path [[= <- <-] | [[= <- <-] | [[= <- <-] | []]]];
    rewrite !in_app_iff; simpl; tauto.
Qed.

End NoRepository.

Lemma main_without_repositories_witness :
  let run := @main nothing_cloned empty_world in
  fst run = Raise KeyError
  /\ calls (snd run) = []
  /\ dataset_csv (snd run) = Some [].
Proof.
  destruct (@main_without_repositories nothing_cloned empty_world)
    as [Hraise [Hcalls [_ [Hcsv _]]]]; [reflexivity|].
  repeat split; assumption.
Defined.

(** ** The console summary on a dataset with records *)

Section SummaryRuns.

Context `{Platform}.

Lemma summarize_console (df : list ComparisonRecord) :
  df <> [] -> console_only (summarize df).
Proof.
  intros Hdf. unfold summarize.
  do 3 (apply console_only_seq; [apply console_only_print|]).
  apply console_only_seq.
  { unfold summarize_overall. destruct df as [|r df]; [congruence|].
    apply console_only_div_print; [apply len_cons_nonzero | intros q].
    do 3 (apply console_only_seq; [apply console_only_print|]).
    apply console_only_print. }
  cbv zeta. apply console_only_seq.
  { unfold summarize_repositories.
    apply console_only_seq; [apply console_only_print|].
    apply console_only_for_each. intros s. apply console_only_print. }
  apply console_only_seq.
  { unfold summarize_file_types.
    apply console_only_seq; [apply console_only_print|].
    apply console_only_for_each. intros [ft total] w.
    unfold print_file_type. rewrite bind_guarded_rate.
    apply console_only_print. }
  apply console_only_seq.
  { unfold summarize_insights.
    do 2 (apply console_only_seq; [apply console_only_print|]).
    pose proof (repo_stats_nonempty df Hdf) as Hrs.
    destruct (repo_stats_of df) as [|s rs]; [congruence|].
    intros w. rewrite bind_py_max. revert w.
    apply console_only_seq; [apply console_only_print|].
    apply console_only_seq; [|apply console_only_print].
    destruct (_ =? 0); apply console_only_print. }
  apply console_only_seq; apply console_only_print.
Qed.

(** X7: on a dataset with at least one record [display_summary] returns
    normally and does nothing but print: it starts no process and writes no
    file. *)
Theorem display_summary_only_prints (df : list ComparisonRecord) (w : World) :
  df <> [] ->
  exists ls, display_summary (Table df) w = (Ok tt, with_lines w ls).
Proof.
  intros Hdf. unfold display_summary.
  rewrite (bind_ok _ _ w w (Some df) eq_refl).
  apply (summarize_console df Hdf).
Qed.

End SummaryRuns.

Lemma display_summary_only_prints_witness :
  exists ls,
    @display_summary (scenario_platform git_agrees []) (Table scenario_dataset)
                     empty_world
    = (Ok tt, with_lines empty_world ls).
Proof.
  apply (@display_summary_only_prints (scenario_platform git_agrees [])).
  discriminate.
Defined.

(** ** How the visualization ends, and what the figure holds *)

Section FigureRuns.

Context `{Platform}.

Lemma file_type_stats_empty_iff (df : list ComparisonRecord) :
  file_type_stats_value df = []
  <-> forall ft, len (where_eq file_type ft df) < min_samples.
Proof.
  split.
  - intros E ft.
    destruct (Z.lt_ge_cases (len (where_eq file_type ft df)) min_samples)
      as [Hlt | Hge]; [exact Hlt|].
    apply In_file_type_stats in Hge. rewrite E in Hge. contradiction.
  - intros Hall. destruct (file_type_stats_value df) as [|s ss] eqn:E;
      [reflexivity|].
    assert (Hin : In s (file_type_stats_value df)) by (rewrite E; now left).
    unfold file_type_stats_value in Hin. apply in_flat_map in Hin.
    destruct Hin as [ft [_ Hin]]. specialize (Hall ft).
    destruct (min_samples <=? len (where_eq file_type ft df)) eqn:Hle;
      [apply Z.leb_le in Hle; lia | contradiction].
Qed.

(** The whole run on a dataset with a file type of enough records. *)
Lemma visualization_saves (df : list ComparisonRecord) (w : World) :
  file_type_stats_value df <> [] ->
  exists fig w',
    create_final_clear_visualization (Table df) w = (Ok df, w')
    /\ calls w' = calls w /\ rows w' = rows w
    /\ dataset_csv w' = dataset_csv w
    /\ figure_png w' = Some fig
    /\ repo_bars fig = repo_data_value df
    /\ file_type_bars fig = sort_by_rate (file_type_stats_value df)
    /\ pie_sizes fig
       = (if 0 <? len (where_eq discrepancy "Yes" df)
          then [len (where_eq discrepancy "No" df);
                len (where_eq discrepancy "Yes" df)]
          else [len (where_eq discrepancy "No" df)]).
Proof.
  intros Hstats.
  assert (Hdf : df <> []) by (intros ->; now apply Hstats).
  pose proof (repo_data_nonempty df Hdf) as Hrepo.
  pose proof (sort_by_rate_nonempty _ Hstats) as Hsorted.
  unfold create_final_clear_visualization.
  destruct (repo_data_value df) as [|rd rds] eqn:Erd; [congruence|].
  destruct (file_type_stats_value df) as [|s ss] eqn:Est; [congruence|].
  destruct (sort_by_rate (s :: ss)) as [|b bs] eqn:Esort; [congruence|].
  destruct (0 <? len (where_eq discrepancy "Yes" df)) eqn:Epie;
    (eexists; eexists; split;
     [ run_prints; rewrite bind_read_csv; cbv beta; run_prints; cbv zeta;
       rewrite !bind_guarded_rate; cbv beta; rewrite Epie; cbv iota beta;
       rewrite bind_repo_data_of, Erd; cbv beta;
       simpl map; rewrite bind_py_max; cbv beta;
       rewrite bind_file_type_stats_of, Est; cbv beta;
       unfold sort_values_rate; rewrite Esort;
       rewrite (bind_ok (ret (b :: bs)) _ _ _ _ eq_refl); cbv beta;
       simpl map; rewrite bind_py_max; cbv beta;
       rewrite !bind_guarded_rate; cbv beta;
       rewrite bind_py_min; cbv beta; rewrite bind_py_max; cbv beta;
       rewrite (bind_ok (bind (py_min fs_rate (s :: ss)) _) _ _ _ _ eq_refl);
       cbv beta iota;
       rewrite (bind_ok (savefig _) _ _ _ _ eq_refl); cbv beta;
       run_prints; reflexivity
     | repeat split ]).
Qed.

(** The run on a dataset whose file types all have too few records. *)
Lemma visualization_stops (df : list ComparisonRecord) (w : World) :
  df <> [] -> file_type_stats_value df = [] ->
  create_final_clear_visualization (Table df) w
  = (Raise KeyError,
     with_lines w [ Print "Loading dataset..." [];
                    Print "Loaded {:,} records" [VInt (len df)] ]).
Proof.
  intros Hdf Est. pose proof (repo_data_nonempty df Hdf) as Hrepo.
  unfold create_final_clear_visualization.
  run_prints. rewrite bind_read_csv. cbv beta. run_prints. cbv zeta.
  rewrite !bind_guarded_rate. cbv beta.
  destruct (repo_data_value df) as [|rd rds] eqn:Erd; [congruence|].
  destruct (0 <? len (where_eq discrepancy "Yes" df)); cbv iota beta;
    rewrite bind_repo_data_of, Erd; cbv beta;
    simpl map; rewrite bind_py_max; cbv beta;
    rewrite bind_file_type_stats_of, Est;
    unfold sort_values_rate, bind, raise, with_line, with_lines; simpl;
    now rewrite <- app_assoc.
Qed.

(** X8: the visualization does not catch a missing [dataset.csv]
    ([FileNotFoundError]); on a dataset without records it raises
    [ValueError]; on a dataset with records of which no file type has 10 it
    raises [KeyError], having saved no figure; and when some file type has
    10 records it saves a figure, returns the frame it read, and changes
    nothing else but the console. *)
Theorem visualization_outcomes (df : list ComparisonRecord) (w : World) :
  fst (create_final_clear_visualization Absent w) = Raise FileNotFoundError
  /\ fst (create_final_clear_visualization (Table []) w) = Raise ValueError
  /\ (df <> [] ->
      (forall ft, len (where_eq file_type ft df) < 10) ->
      let run := create_final_clear_visualization (Table df) w in
      fst run = Raise KeyError /\ figure_png (snd run) = figure_png w)
  /\ ((exists ft, 10 <= len (where_eq file_type ft df)) ->
      let run := create_final_clear_visualization (Table df) w in
      fst run = Ok df
      /\ calls (snd run) = calls w /\ rows (snd run) = rows w
      /\ dataset_csv (snd run) = dataset_csv w
      /\ exists fig, figure_png (snd run) = Some fig).
Proof.
  split; [reflexivity | split; [reflexivity | split]].
  - intros Hdf Hall run. subst run.
    rewrite (visualization_stops df w Hdf);
      [now split | now apply file_type_stats_empty_iff].
  - intros [ft Hft] run. subst run.
    assert (Hstats : file_type_stats_value df <> []).
    { intros E. apply (proj1 (file_type_stats_empty_iff df)) with (ft := ft) in E.
      unfold min_samples in E. lia. }
    destruct (visualization_saves df w Hstats)
      as [fig [w' [E [Hc [Hr [Hd [Hf _]]]]]]].
    rewrite E. simpl. repeat split; try assumption. now exists fig.
Qed.

End FigureRuns.

Lemma visualization_outcomes_witness :
  fst (@create_final_clear_visualization (scenario_platform git_agrees [])
         (Table [sample_record "fastapi" "Source" "No"]) empty_world)
  = Raise KeyError
  /\ fst (@create_final_clear_visualization (scenario_platform git_agrees [])
            (Table scenario_dataset) empty_world)
     = Ok scenario_dataset.
Proof.
  split.
  - destruct (@visualization_outcomes (scenario_platform git_agrees [])
                [sample_record "fastapi" "Source" "No"] empty_world)
      as [_ [_ [Hfew _]]].
    apply Hfew; [discriminate|].
    intros ft. unfold where_eq, len.
    pose proof (filter_length_le
                  (fun r => String.eqb (file_type r) ft)
                  [sample_record "fastapi" "Source" "No"]) as Hle.
    change (List.length [sample_record "fastapi" "Source" "No"])
      with 1%nat in Hle.
    lia.
  - destruct (@visualization_outcomes (scenario_platform git_agrees [])
                scenario_dataset empty_world) as [_ [_ [_ Henough]]].
    apply Henough. exists "Source". now vm_compute.
Defined.

(** ** The bars of the file-type panel *)


Lemma Qlt_bool_true (x y : Q) : Qlt_bool x y = true -> (x < y)%Q.
Proof.
  unfold Qlt_bool. rewrite negb_true_iff. intros E.
  apply Qnot_le_lt. intros Hle. apply Qle_bool_iff in Hle. congruence.
Qed.

Lemma Qlt_bool_false (x y : Q) : Qlt_bool x y = false -> (y <= x)%Q.
Proof.
  unfold Qlt_bool. rewrite negb_false_iff. apply Qle_bool_iff.
Qed.





Section Bars.

Context `{Platform}.


End Bars.


(** ** Counts and rates *)














(** ** Extremal lookups *)

Section Extremal.

Context {A : Type} (key : A -> Q).

Lemma first_max_spec (l : list A) (best : A) :
  let x := first_max key best l in
  (x = best /\ forall y, In y l -> (key y <= key best)%Q)
  \/ exists before after,
       l = (before ++ x :: after)%list
       /\ (key best < key x)%Q
       /\ (forall y, In y before -> (key y < key x)%Q)
       /\ (forall y, In y after -> (key y <= key x)%Q).
Proof.
  revert best. induction l as [|a l IH]; intros best; simpl.
  - left. split; [reflexivity | contradiction].
  - destruct (Qlt_bool (key best) (key a)) eqn:E.
    + apply Qlt_bool_true in E. right.
      destruct (IH a) as [[Hx Hall] | [before [after [Hl [Hlt [Hb Ha]]]]]].
      * exists [], l. rewrite Hx. simpl. repeat split; tauto.
      * exists (a :: before), after. rewrite Hl at 1. simpl.
        repeat split; try assumption.
        -- eapply Qlt_trans; eassumption.
        -- intros y [<- | Hy]; [assumption | now apply Hb].
    + apply Qlt_bool_false in E.
      destruct (IH best) as [[Hx Hall] | [before [after [Hl [Hlt [Hb Ha]]]]]].
      * left. split; [exact Hx|]. intros y [<- | Hy]; [exact E | now apply Hall].
      * right. exists (a :: before), after. rewrite Hl at 1. simpl.
        repeat split; try assumption.
        intros y [<- | Hy]; [|now apply Hb].
        eapply Qle_lt_trans; eassumption.
Qed.

Lemma first_min_spec (l : list A) (best : A) :
  let x := first_min key best l in
  (x = best /\ forall y, In y l -> (key best <= key y)%Q)
  \/ exists before after,
       l = (before ++ x :: after)%list
       /\ (key x < key best)%Q
       /\ (forall y, In y before -> (key x < key y)%Q)
       /\ (forall y, In y after -> (key x <= key y)%Q).
Proof.
  revert best. induction l as [|a l IH]; intros best; simpl.
  - left. split; [reflexivity | contradiction].
  - destruct (Qlt_bool (key a) (key best)) eqn:E.
    + apply Qlt_bool_true in E. right.
      destruct (IH a) as [[Hx Hall] | [before [after [Hl [Hlt [Hb Ha]]]]]].
      * exists [], l. rewrite Hx. simpl. repeat split; tauto.
      * exists (a :: before), after. rewrite Hl at 1. simpl.
        repeat split; try assumption.
        -- eapply Qlt_trans; eassumption.
        -- intros y [<- | Hy]; [assumption | now apply Hb].
    + apply Qlt_bool_false in E.
      destruct (IH best) as [[Hx Hall] | [before [after [Hl [Hlt [Hb Ha]]]]]].
      * left. split; [exact Hx|]. intros y [<- | Hy]; [exact E | now apply Hall].
      * right. exists (a :: before), after. rewrite Hl at 1. simpl.
        repeat split; try assumption.
        intros y [<- | Hy]; [|now apply Hb].
        eapply Qlt_le_trans; eassumption.
Qed.

(** X12: on a non-empty list [max(l, key=...)] returns the first element of
    the largest key and [min(l, key=...)] the first element of the smallest
    key: every element before it is strictly worse, every element after it
    is not better.  On an empty list both raise [ValueError]. *)
Theorem extremal_lookups (l : list A) (w : World) :
  (l = [] ->
   py_max key l w = (Raise ValueError, w)
   /\ py_min key l w = (Raise ValueError, w))
  /\ (l <> [] ->
      (exists x before after,
          py_max key l w = (Ok x, w)
          /\ l = (before ++ x :: after)%list
          /\ (forall y, In y before -> (key y < key x)%Q)
          /\ (forall y, In y after -> (key y <= key x)%Q))
      /\ (exists x before after,
             py_min key l w = (Ok x, w)
             /\ l = (before ++ x :: after)%list
             /\ (forall y, In y before -> (key x < key y)%Q)
             /\ (forall y, In y after -> (key x <= key y)%Q))).
Proof.
  split; [intros ->; split; reflexivity|].
  destruct l as [|b l]; [congruence|]. intros _. split.
  - exists (first_max key b l). unfold py_max, ret.
    destruct (first_max_spec l b) as [[Hx Hall] | [before [after [Hl [Hlt [Hb Ha]]]]]].
    + exists [], l. rewrite Hx.
      split; [reflexivity | split; [reflexivity | split]];
        [contradiction | assumption].
    + exists (b :: before), after.
      split; [reflexivity | split; [simpl; f_equal; exact Hl | split]];
        [|assumption].
      intros y [<- | Hy]; [assumption | now apply Hb].
  - exists (first_min key b l). unfold py_min, ret.
    destruct (first_min_spec l b) as [[Hx Hall] | [before [after [Hl [Hlt [Hb Ha]]]]]].
    + exists [], l. rewrite Hx.
      split; [reflexivity | split; [reflexivity | split]];
        [contradiction | assumption].
    + exists (b :: before), after.
      split; [reflexivity | split; [simpl; f_equal; exact Hl | split]];
        [|assumption].
      intros y [<- | Hy]; [assumption | now apply Hb].
Qed.

End Extremal.

Lemma extremal_lookups_witness :
  py_max (fun q : Q => q) [] empty_world = (Raise ValueError, empty_world)
  /\ exists x before after,
       py_max (fun q : Q => q) [(1#2)%Q; 3%Q; 3%Q; 2%Q] empty_world
       = (Ok x, empty_world)
       /\ [(1#2)%Q; 3%Q; 3%Q; 2%Q] = (before ++ x :: after)%list
       /\ (forall y, In y before -> (y < x)%Q)
       /\ (forall y, In y after -> (y <= x)%Q).
Proof.
  split.
  - apply (extremal_lookups (fun q : Q => q) [] empty_world). reflexivity.
  - apply (extremal_lookups (fun q : Q => q) [(1#2)%Q; 3%Q; 3%Q; 2%Q]
                            empty_world).
    discriminate.
Defined.

(** ** Complementary rates *)



(** ** The shape of a file extension *)

Lemma lower_char_not_dot_slash (c : ascii) :
  (lower_char c = "."%char -> c = "."%char)
  /\ (lower_char c = "/"%char -> c = "/"%char)
  /\ lower_char (lower_char c) = lower_char c.
Proof.
  destruct c as [[] [] [] [] [] [] [] []]; vm_compute;
    repeat split; intros; congruence.
Qed.

Lemma In_lower (c : ascii) (s : string) :
  In c (list_ascii_of_string (lower s)) ->
  exists c', In c' (list_ascii_of_string s) /\ lower_char c' = c.
Proof.
  induction s as [|a s IH]; simpl; [contradiction|].
  intros [<- | Hin].
  - exists a. auto.
  - destruct (IH Hin) as [c' [Hc' E]]. exists c'. auto.
Qed.

Lemma lower_idempotent (s : string) : lower (lower s) = lower s.
Proof.
  induction s as [|a s IH]; simpl; [reflexivity|].
  rewrite IH. f_equal. apply lower_char_not_dot_slash.
Qed.

Lemma rfind_absent (c : ascii) (s : string) :
  rfind c s < 0 -> ~ In c (list_ascii_of_string s).
Proof.
  induction s as [|a s IH]; simpl; [tauto|].
  destruct (0 <=? rfind c s) eqn:E.
  - apply Z.leb_le in E. lia.
  - apply Z.leb_gt in E. destruct (Ascii.eqb_spec a c) as [-> | Hne]; [lia|].
    intros _ [Ha | Hin]; [congruence | now apply IH].
Qed.

(** Beyond the index [rfind] returns the character does not occur. *)
Lemma rfind_drop_absent (c : ascii) (s : string) (n : nat) :
  rfind c s < Z.of_nat n -> ~ In c (list_ascii_of_string (drop n s)).
Proof.
  revert n. induction s as [|a s IH]; intros n Hn.
  - destruct n; simpl; tauto.
  - destruct n as [|n].
    + apply rfind_absent. simpl Z.of_nat in Hn. exact Hn.
    + simpl drop. apply IH. simpl rfind in Hn.
      destruct (0 <=? rfind c s) eqn:E; [lia|].
      apply Z.leb_gt in E. lia.
Qed.

Lemma drop_drop_one (n : nat) (s : string) (c : ascii) (rest : string) :
  drop n s = String c rest -> drop (S n) s = rest.
Proof.
  revert s. induction n as [|n IH]; intros [|a s] E; simpl in *;
    try discriminate.
  - now inversion E.
  - now apply IH.
Qed.

(** X14: the extension the classifier and the [file_extension] column use
    is empty, or it is a dot followed by characters among which there is
    neither a dot nor a slash; and it is in lower case already. *)
Theorem file_extension_shape (p : string) :
  (file_extension_of p = ""
   \/ exists rest,
        file_extension_of p = String "." rest
        /\ ~ In "."%char (list_ascii_of_string rest)
        /\ ~ In "/"%char (list_ascii_of_string rest))
  /\ lower (file_extension_of p) = file_extension_of p.
Proof.
  split; [|apply lower_idempotent].
  unfold file_extension_of, splitext.
  destruct (rfind "/" p <? rfind "." p) eqn:E; [|now left].
  apply Z.ltb_lt in E.
  destruct (splitext_loop_ext p (rfind "." p)
              (Z.to_nat (rfind "." p - (rfind "/" p + 1))) (rfind "/" p + 1))
    as [Hext | Hext]; rewrite Hext; [now left | right].
  pose proof (rfind_lower_bound "/" p) as Hsep.
  destruct (drop_rfind "." p ltac:(lia)) as [rest Hrest].
  exists (lower rest). rewrite Hrest. split; [reflexivity|].
  pose proof (drop_drop_one _ _ _ _ Hrest) as Hnext.
  split; intros Hin; apply In_lower in Hin; destruct Hin as [c [Hc Hlow]].
  - apply lower_char_not_dot_slash in Hlow. subst c.
    rewrite <- Hnext in Hc. revert Hc. apply rfind_drop_absent. lia.
  - apply lower_char_not_dot_slash in Hlow. subst c.
    rewrite <- Hnext in Hc. revert Hc. apply rfind_drop_absent. lia.
Qed.

(** ** The classifier as a table *)

Lemma extension_sets_disjoint (ext : string) :
  (str_in ext source_extensions = true ->
   str_in ext documentation_extensions = false
   /\ str_in ext config_extensions = false
   /\ str_in ext web_extensions = false)
  /\ (str_in ext documentation_extensions = true ->
      str_in ext config_extensions = false
      /\ str_in ext web_extensions = false)
  /\ (str_in ext config_extensions = true ->
      str_in ext web_extensions = false).
Proof.
  split; [|split]; intros Hin; apply str_in_In in Hin; simpl in Hin;
    repeat (destruct Hin as [<- | Hin]; [repeat split; reflexivity|]);
    contradiction.
Qed.

(** X15: the category of a non-empty path is decided by its extension
    alone when the extension is in one of the four sets, whatever the order
    of the tests (the sets are disjoint); otherwise it is [Test] when the
    path contains "test" and [Other] when it does not. *)
Theorem classify_by_extension (c : ascii) (s : string) :
  let p := String c s in
  let ext := file_extension_of p in
  let category := classify_file_type (Some p) in
  let in_no_set :=
    ~ In ext source_extensions /\ ~ In ext documentation_extensions
    /\ ~ In ext config_extensions /\ ~ In ext web_extensions in
  (category = "Source" <-> In ext source_extensions)
  /\ (category = "Documentation" <-> In ext documentation_extensions)
  /\ (category = "Config" <-> In ext config_extensions)
  /\ (category = "Web" <-> In ext web_extensions)
  /\ (category = "Test" <-> in_no_set /\ contains "test" p = true)
  /\ (category = "Other" <-> in_no_set /\ contains "test" p = false).
Proof.
  intros p ext category in_no_set. subst category in_no_set ext p.
  unfold classify_file_type. rewrite (test_extension_never (String c s)).
  rewrite orb_false_l. set (p := String c s).
  set (ext := file_extension_of p).
  rewrite <- !str_in_In.
  destruct (extension_sets_disjoint ext) as [Hs [Hd Hc]].
  destruct (str_in ext source_extensions) eqn:Es.
  { destruct (Hs eq_refl) as [-> [-> ->]]. intuition congruence. }
  destruct (str_in ext documentation_extensions) eqn:Ed.
  { destruct (Hd eq_refl) as [-> ->]. intuition congruence. }
  destruct (str_in ext config_extensions) eqn:Ec.
  { rewrite (Hc eq_refl). intuition congruence. }
  destruct (str_in ext web_extensions) eqn:Ew.
  { intuition congruence. }
  destruct (contains "test" p); intuition congruence.
Qed.

(** ** The pie chart and the dataset of [main] *)


Section Pie.

Context `{Platform}.


End Pie.
